(** * Commission calculation engine (src/services/calculator.ts)

    A shallow embedding of the tiered commission calculators of
    comp-tracker, and the properties its specification states about them.

    Numbers.  The calculators work on JavaScript numbers.  In the main
    embedding every number is an exact rational ([Qc]); the one
    non-finite value the code introduces itself, the literal [Infinity]
    used for a missing ceiling, is the constructor [Inf] of [xnum].
    Rounding of IEEE 754 doubles and NaN are outside that embedding: its
    arithmetic is exact, and it carries the properties that do not
    depend on rounding (comparisons, order, what is emitted and when).
    The aggregate calculator is embedded a second time on binary64
    numbers ([Binary64]), with rounding to nearest even, signed zeros,
    infinities and NaN, for the properties that are about the computed
    amounts themselves.

    Optional fields.  A Salesforce numeric field may be absent
    ([undefined] / [null]); it is an [option Qc], and the code's [x || d]
    and [x ? a : b] are embedded through JavaScript truthiness
    ([truthy]): an absent number and the number 0 are both falsy.

    Arrays.  [tiers] and [deals] are JavaScript arrays, which are
    mutable and passed by reference.  The value-level calculators
    ([calculateTieredCommission], [calculateDealByDealCommission]) take
    the contents of the arrays; the store-level ones ([Heap.] ...) take
    references into a store of arrays and perform the copy
    ([[...a]]) and the in-place [sort] the source performs. *)

From Stdlib Require Import QArith Qcanon Lqa Sorted Permutation.
From Stdlib Require Import Ascii Decimal DecimalString DecimalPos DecimalZ.
From Stdlib Require SpecFloat.
From stdpp Require Import base numbers list gmap strings.

Local Open Scope Qc_scope.

(** ** JavaScript numbers *)

Abbreviation num := Qc (only parsing).

(** An integer literal. *)
Definition int (z : Z) : num := Qc_of_Z z.

(** [Infinity] appears only as the ceiling of an uncapped tier. *)
Inductive xnum : Type :=
  | Fin (q : num)
  | Inf.

Definition leb (x y : num) : bool := bool_decide (x ≤ y).
Definition ltb (x y : num) : bool := bool_decide (x < y).

(** [a < c] where [c] may be [Infinity]. *)
Definition xltb (a : num) (c : xnum) : bool :=
  match c with
  | Fin q => ltb a q
  | Inf => true
  end.

(** [Math.max(x, y)] and [Math.min(x, y)] on finite numbers. *)
Definition Math_max (x y : num) : num := if leb x y then y else x.
Definition Math_min (x y : num) : num := if leb x y then x else y.

(** [Math.min(x, r)] where [r] may be [Infinity]. *)
Definition Math_min_x (x : num) (r : xnum) : num :=
  match r with
  | Fin q => Math_min x q
  | Inf => x
  end.

(** [c - f] where [c] may be [Infinity]: [Infinity - f] is [Infinity]. *)
Definition xsub (c : xnum) (f : num) : xnum :=
  match c with
  | Fin q => Fin (q - f)
  | Inf => Inf
  end.

(** Truthiness of an optional number: absent and 0 are falsy. *)
Definition truthy (x : option num) : option num :=
  match x with
  | Some q => if decide (q = 0) then None else Some q
  | None => None
  end.

(** [x || 0] *)
Definition orZero (x : option num) : num := default 0 (truthy x).

(** [x || Infinity] *)
Definition orInfinity (x : option num) : xnum :=
  match truthy x with
  | Some q => Fin q
  | None => Inf
  end.

(** [s || d] on strings: the empty string is falsy. *)
Definition orString (s d : string) : string := if decide (s = EmptyString) then d else s.

(** ** [Array.prototype.sort]

    [sort] is stable (ECMAScript 2019).  [after a b] says that the
    comparator is positive on [(a, b)], that is, [a] has to come after
    [b].  Both comparators of the engine are differences of a numeric
    key, so they are consistent, and the result of a stable sort is then
    determined: each element is placed behind the elements it has to
    come after, and in front of the first one it need not come after. *)
Section Sort.
Context {A : Type} (after : A → A → bool).

Fixpoint sort_insert (x : A) (l : list A) : list A :=
  match l with
  | [] => [x]
  | y :: l' => if after x y then y :: sort_insert x l' else x :: l
  end.

Fixpoint Array_sort (l : list A) : list A :=
  match l with
  | [] => []
  | x :: l' => sort_insert x (Array_sort l')
  end.

(** [before a b]: the comparator does not ask for [a] behind [b]. *)
Definition before (a b : A) : Prop := after a b = false.
End Sort.

(** ** Types (src/types/index.ts) *)

Record PlanTier : Type := mkPlanTier {
  tier_Id : string;
  tier_Name : string;
  Comp_Plan__c : string;
  Attainment_Floor__c : option num;
  Attainment_Ceiling__c : option num;
  Commission_Rate__c : option num;
  Order__c : option num;
}.

(** [CloseDate] is kept as the time value of the date,
    [new Date(CloseDate).getTime()], in milliseconds since the epoch. *)
Record SalesforceOpportunity : Type := mkOpportunity {
  opp_Id : string;
  opp_Name : string;
  Amount : option num;
  StageName : string;
  CloseDate : Z;
  OwnerId : string;
}.

(** The name of a breakdown entry: the tier's [Name], or, when that is
    empty, the template literal
    [`${tierFloor * 100}% - ${... 'Uncapped' : tierCeiling * 100 + '%'}`],
    kept with its two numeric holes unrendered. *)
Inductive TierLabel : Type :=
  | Named (s : string)
  | Range (floorPct : num) (ceilingPct : xnum).

Record TierBreakdown : Type := mkTierBreakdown {
  tierName : TierLabel;
  bookingsInTier : num;
  rateApplied : num;
  commissionAmount : num;
}.

Record CommissionCalculation : Type := mkCommissionCalculation {
  grossCommission : num;
  tierBreakdown : list TierBreakdown;
  attainmentPercent : num;
}.

Record DealCommission : Type := mkDealCommission {
  opportunityId : string;
  opportunityName : string;
  dealAmount : num;
  commissionRate : num;
  dc_commissionAmount : num;
  tierApplied : string;
  attainmentAtDeal : num;
  runningBookings : num;
}.

(** ** The calculators *)

(** The comparator of both tier sorts:
    [(a.Attainment_Floor__c || 0) - (b.Attainment_Floor__c || 0)]. *)
Definition tierCompare (a b : PlanTier) : num :=
  orZero (Attainment_Floor__c a) - orZero (Attainment_Floor__c b).

Definition sortTiers (tiers : list PlanTier) : list PlanTier :=
  Array_sort (λ a b, ltb 0 (tierCompare a b)) tiers.

(** The comparator of the deal sort:
    [new Date(a.CloseDate).getTime() - new Date(b.CloseDate).getTime()]. *)
Definition dealCompare (a b : SalesforceOpportunity) : Z :=
  (CloseDate a - CloseDate b)%Z.

Definition sortDeals (deals : list SalesforceOpportunity) : list SalesforceOpportunity :=
  Array_sort (λ a b, bool_decide (0 < dealCompare a b)%Z) deals.

(** *** calculateTieredCommission *)

(** The loop state: [totalCommission] and [breakdown]. *)
Record TieredState : Type := mkTieredState {
  totalCommission : num;
  breakdown : list TierBreakdown;
}.

(** [tier.Attainment_Ceiling__c ? tier.Attainment_Ceiling__c / 100 : Infinity] *)
Definition tierCeilingOf (tier : PlanTier) : xnum :=
  match truthy (Attainment_Ceiling__c tier) with
  | Some c => Fin (c / int 100)
  | None => Inf
  end.

(** [tierCeiling === Infinity ? Infinity : tierCeiling * quota] *)
Definition ceilingAmount (quota : num) (tierCeiling : xnum) : xnum :=
  match tierCeiling with
  | Inf => Inf
  | Fin c => Fin (c * quota)
  end.

(** The [tierCeilingAmount] of a tier. *)
Definition tierCeilingAmountOf (quota : num) (tier : PlanTier) : xnum :=
  ceilingAmount quota (tierCeilingOf tier).

Definition tierLabel (tier : PlanTier) (tierFloor : num) (tierCeiling : xnum) : TierLabel :=
  if decide (tier_Name tier = EmptyString)
  then Range (tierFloor * int 100)
             (match tierCeiling with Inf => Inf | Fin c => Fin (c * int 100) end)
  else Named (tier_Name tier).

(** One iteration of [for (const tier of sortedTiers)]. *)
Definition tieredStep (bookings quota : num) (st : TieredState) (tier : PlanTier)
    : TieredState :=
  let tierFloor := orZero (Attainment_Floor__c tier) / int 100 in
  let tierCeiling := tierCeilingOf tier in
  let tierRate := orZero (Commission_Rate__c tier) / int 100 in
  let tierFloorAmount := tierFloor * quota in
  let tierCeilingAmount := ceilingAmount quota tierCeiling in
  let bookingsAboveFloor := Math_max (bookings - tierFloorAmount) 0 in
  let tierRange := xsub tierCeilingAmount tierFloorAmount in
  let bookingsInTier := Math_min_x bookingsAboveFloor tierRange in
  if ltb 0 bookingsInTier then
    let tierCommission := bookingsInTier * tierRate in
    {| totalCommission := totalCommission st + tierCommission;
       breakdown := breakdown st ++
         [ {| tierName := tierLabel tier tierFloor tierCeiling;
              bookingsInTier := bookingsInTier;
              rateApplied := tierRate;
              commissionAmount := tierCommission |} ] |}
  else st.

Definition calculateTieredCommission (bookings quota : num) (tiers : list PlanTier)
    : CommissionCalculation :=
  if leb quota 0 then
    {| grossCommission := 0; tierBreakdown := []; attainmentPercent := 0 |}
  else
    let attainment := bookings / quota in
    let sortedTiers := sortTiers tiers in
    let st := fold_left (tieredStep bookings quota) sortedTiers
                {| totalCommission := 0; breakdown := [] |} in
    {| grossCommission := totalCommission st;
       tierBreakdown := breakdown st;
       attainmentPercent := attainment * int 100 |}.

(** *** findTierForAttainment *)

(** The scan from a given [applicableTier]; the first branch is the
    [break]. *)
Fixpoint findTierFrom (attainmentPercent : num) (applicableTier : option PlanTier)
    (tiers : list PlanTier) : option PlanTier :=
  match tiers with
  | [] => applicableTier
  | tier :: rest =>
      let floor := orZero (Attainment_Floor__c tier) in
      let ceiling := orInfinity (Attainment_Ceiling__c tier) in
      if leb floor attainmentPercent && xltb attainmentPercent ceiling then
        Some tier
      else if leb floor attainmentPercent then
        findTierFrom attainmentPercent (Some tier) rest
      else
        findTierFrom attainmentPercent applicableTier rest
  end.

Definition findTierForAttainment (attainmentPercent : num) (tiers : list PlanTier)
    : option PlanTier :=
  findTierFrom attainmentPercent None tiers.

(** *** calculateDealByDealCommission *)

(** The loop state: [runningBookings] and [dealCommissions]. *)
Record DealState : Type := mkDealState {
  st_runningBookings : num;
  dealCommissions : list DealCommission;
}.

(** One iteration of [for (const deal of sortedDeals)]. *)
Definition dealStep (quota : num) (sortedTiers : list PlanTier) (st : DealState)
    (deal : SalesforceOpportunity) : DealState :=
  let dealAmount := orZero (Amount deal) in
  let runningBookings := st_runningBookings st + dealAmount in
  let attainmentAtDeal := (runningBookings / quota) * int 100 in
  let applicableTier := findTierForAttainment attainmentAtDeal sortedTiers in
  let commissionRate :=
    match applicableTier with
    | Some t => orZero (Commission_Rate__c t) / int 100
    | None => 0
    end in
  let commissionAmount := dealAmount * commissionRate in
  {| st_runningBookings := runningBookings;
     dealCommissions := dealCommissions st ++
       [ {| opportunityId := opp_Id deal;
            opportunityName := opp_Name deal;
            dealAmount := dealAmount;
            commissionRate := commissionRate;
            dc_commissionAmount := commissionAmount;
            tierApplied :=
              orString (match applicableTier with
                        | Some t => tier_Name t
                        | None => EmptyString
                        end) "Base";
            attainmentAtDeal := attainmentAtDeal;
            runningBookings := runningBookings |} ] |}.

Definition calculateDealByDealCommission (deals : list SalesforceOpportunity)
    (quota : num) (tiers : list PlanTier) : list DealCommission :=
  if leb quota 0 || bool_decide (length deals = 0%nat) then []
  else
    let sortedDeals := sortDeals deals in
    let sortedTiers := sortTiers tiers in
    dealCommissions
      (fold_left (dealStep quota sortedTiers) sortedDeals
         {| st_runningBookings := 0; dealCommissions := [] |}).

(** ** The calculators on a store of arrays

    The source receives [tiers] and [deals] by reference.  A store maps
    references to the current contents of the arrays; a computation
    takes a store and either throws ([None]) or returns a value and the
    store it leaves behind. *)
Module Heap.

Abbreviation ref := positive (only parsing).

Record store : Type := mkStore {
  tierArrays : gmap positive (list PlanTier);
  dealArrays : gmap positive (list SalesforceOpportunity);
}.

Definition M (X : Type) : Type := store → option (X * store).

Definition ret {X} (x : X) : M X := λ σ, Some (x, σ).

Definition bind {X Y} (m : M X) (k : X → M Y) : M Y :=
  λ σ, match m σ with
       | Some (x, σ') => k x σ'
       | None => None
       end.

Notation "x ←← m ; k" := (bind m (λ x, k))
  (at level 20, m at level 100, k at level 200, right associativity,
   format "'[' x  ←←  m ; '/' k ']'").

(** Reading the elements of an array (its [length], its iteration). *)
Definition readTiers (r : ref) : M (list PlanTier) :=
  λ σ, match tierArrays σ !! r with
       | Some v => Some (v, σ)
       | None => None
       end.

Definition readDeals (r : ref) : M (list SalesforceOpportunity) :=
  λ σ, match dealArrays σ !! r with
       | Some v => Some (v, σ)
       | None => None
       end.

(** [[...a]]: a new array with the elements of [a]. *)
Definition spreadTiers (r : ref) : M ref :=
  λ σ, match tierArrays σ !! r with
       | Some v =>
           let r' := fresh (dom (tierArrays σ)) in
           Some (r', {| tierArrays := <[r' := v]> (tierArrays σ);
                        dealArrays := dealArrays σ |})
       | None => None
       end.

Definition spreadDeals (r : ref) : M ref :=
  λ σ, match dealArrays σ !! r with
       | Some v =>
           let r' := fresh (dom (dealArrays σ)) in
           Some (r', {| tierArrays := tierArrays σ;
                        dealArrays := <[r' := v]> (dealArrays σ) |})
       | None => None
       end.

(** [a.sort(cmp)]: sorts the array [a] in place and returns [a]. *)
Definition sortTiersAt (r : ref) : M ref :=
  λ σ, match tierArrays σ !! r with
       | Some v =>
           Some (r, {| tierArrays := <[r := sortTiers v]> (tierArrays σ);
                       dealArrays := dealArrays σ |})
       | None => None
       end.

Definition sortDealsAt (r : ref) : M ref :=
  λ σ, match dealArrays σ !! r with
       | Some v =>
           Some (r, {| tierArrays := tierArrays σ;
                       dealArrays := <[r := sortDeals v]> (dealArrays σ) |})
       | None => None
       end.

Definition calculateTieredCommission (bookings quota : num) (tiers : ref)
    : M CommissionCalculation :=
  if leb quota 0 then
    ret {| grossCommission := 0; tierBreakdown := []; attainmentPercent := 0 |}
  else
    let attainment := bookings / quota in
    copy ←← spreadTiers tiers;
    sortedTiers ←← sortTiersAt copy;
    elems ←← readTiers sortedTiers;
    let st := fold_left (tieredStep bookings quota) elems
                {| totalCommission := 0; breakdown := [] |} in
    ret {| grossCommission := totalCommission st;
           tierBreakdown := breakdown st;
           attainmentPercent := attainment * int 100 |}.

Definition findTierForAttainment (attainmentPercent : num) (tiers : ref)
    : M (option PlanTier) :=
  elems ←← readTiers tiers;
  ret (findTierFrom attainmentPercent None elems).

(** The body of [for (const deal of sortedDeals)]; every iteration
    scans the array [sortedTiers] again. *)
Definition dealStep (quota : num) (sortedTiers : ref) (st : DealState)
    (deal : SalesforceOpportunity) : M DealState :=
  let dealAmount := orZero (Amount deal) in
  let runningBookings := st_runningBookings st + dealAmount in
  let attainmentAtDeal := (runningBookings / quota) * int 100 in
  applicableTier ←← findTierForAttainment attainmentAtDeal sortedTiers;
  let commissionRate :=
    match applicableTier with
    | Some t => orZero (Commission_Rate__c t) / int 100
    | None => 0
    end in
  let commissionAmount := dealAmount * commissionRate in
  ret {| st_runningBookings := runningBookings;
         dealCommissions := dealCommissions st ++
           [ {| opportunityId := opp_Id deal;
                opportunityName := opp_Name deal;
                dealAmount := dealAmount;
                commissionRate := commissionRate;
                dc_commissionAmount := commissionAmount;
                tierApplied :=
                  orString (match applicableTier with
                            | Some t => tier_Name t
                            | None => EmptyString
                            end) "Base";
                attainmentAtDeal := attainmentAtDeal;
                runningBookings := runningBookings |} ] |}.

Fixpoint dealLoop (quota : num) (sortedTiers : ref)
    (elems : list SalesforceOpportunity) (st : DealState) : M DealState :=
  match elems with
  | [] => ret st
  | deal :: rest =>
      st' ←← dealStep quota sortedTiers st deal;
      dealLoop quota sortedTiers rest st'
  end.

(** [quota <= 0 || deals.length === 0] short-circuits: [deals] is not
    read when [quota <= 0]. *)
Definition calculateDealByDealCommission (deals : ref) (quota : num) (tiers : ref)
    : M (list DealCommission) :=
  if leb quota 0 then ret []
  else
    dealElems ←← readDeals deals;
    if bool_decide (length dealElems = 0%nat) then ret []
    else
      dealsCopy ←← spreadDeals deals;
      sortedDeals ←← sortDealsAt dealsCopy;
      tiersCopy ←← spreadTiers tiers;
      sortedTiers ←← sortTiersAt tiersCopy;
      elems ←← readDeals sortedDeals;
      st ←← dealLoop quota sortedTiers elems
              {| st_runningBookings := 0; dealCommissions := [] |};
      ret (dealCommissions st).

(** Every array of the store [σ] is still there in [σ'], with the same
    elements in the same order. *)
Definition unchanged (σ σ' : store) : Prop :=
  (∀ r v, tierArrays σ !! r = Some v → tierArrays σ' !! r = Some v) ∧
  (∀ r v, dealArrays σ !! r = Some v → dealArrays σ' !! r = Some v).

End Heap.

(** ** Vocabulary of the specification *)

(** The floor of a tier, as both calculators read it. *)
Definition tierFloor (t : PlanTier) : num := orZero (Attainment_Floor__c t).

(** The matcher's own view of a tier: its floor is [tierFloor], its
    ceiling [tierCeilingPct]; [exactMatch] is the test in front of the
    [break]. *)
Definition tierCeilingPct (t : PlanTier) : xnum := orInfinity (Attainment_Ceiling__c t).

Definition exactMatch (a : num) (t : PlanTier) : bool :=
  leb (tierFloor t) a && xltb a (tierCeilingPct t).

(** The attainment lies in the half-open range [floor, ceiling) the
    fields of the tier spell out; no ceiling field, no upper end. *)
Definition inRange (a : num) (t : PlanTier) : Prop :=
  tierFloor t ≤ a ∧
  match Attainment_Ceiling__c t with
  | Some c => a < c
  | None => True
  end.

(** The tier with a ceiling of 0 turned into no ceiling at all. *)
Definition withoutZeroCeiling (t : PlanTier) : PlanTier :=
  if decide (Attainment_Ceiling__c t = Some 0) then
    {| tier_Id := tier_Id t; tier_Name := tier_Name t; Comp_Plan__c := Comp_Plan__c t;
       Attainment_Floor__c := Attainment_Floor__c t;
       Attainment_Ceiling__c := None;
       Commission_Rate__c := Commission_Rate__c t;
       Order__c := Order__c t |}
  else t.

(** What the loop records of a deal, given the tiers it scans. *)
Definition recordOf (quota : num) (sortedTiers : list PlanTier) (r : DealCommission) : Prop :=
  let applicableTier := findTierForAttainment (attainmentAtDeal r) sortedTiers in
  attainmentAtDeal r = (runningBookings r / quota) * int 100 ∧
  commissionRate r =
    match applicableTier with
    | Some t => orZero (Commission_Rate__c t) / int 100
    | None => 0
    end ∧
  dc_commissionAmount r = dealAmount r * commissionRate r ∧
  tierApplied r =
    orString (match applicableTier with
              | Some t => tier_Name t
              | None => EmptyString
              end) "Base".

(** The record emitted for a deal carries its id, name and amount. *)
Definition recordFor (d : SalesforceOpportunity) (r : DealCommission) : Prop :=
  opportunityId r = opp_Id d ∧ opportunityName r = opp_Name d ∧
  dealAmount r = orZero (Amount d).

(** The invariant of the deal loop behind the monotone running total. *)
Definition runningSorted (st : DealState) : Prop :=
  StronglySorted Qcle (runningBookings <$> dealCommissions st) ∧
  Forall (λ r, runningBookings r ≤ st_runningBookings st) (dealCommissions st).

(** ** Decidable equality of the results, for evaluation *)

Global Instance xnum_eq_dec : EqDecision xnum.
Proof. solve_decision. Defined.
Global Instance PlanTier_eq_dec : EqDecision PlanTier.
Proof. solve_decision. Defined.
Global Instance SalesforceOpportunity_eq_dec : EqDecision SalesforceOpportunity.
Proof. solve_decision. Defined.
Global Instance TierLabel_eq_dec : EqDecision TierLabel.
Proof. solve_decision. Defined.
Global Instance TierBreakdown_eq_dec : EqDecision TierBreakdown.
Proof. solve_decision. Defined.
Global Instance CommissionCalculation_eq_dec : EqDecision CommissionCalculation.
Proof. solve_decision. Defined.
Global Instance DealCommission_eq_dec : EqDecision DealCommission.
Proof. solve_decision. Defined.

(** Closed equations between results are settled by evaluation. *)
Ltac by_eval := apply (bool_decide_unpack _); vm_compute; exact I.

(** ** The worked example of the specification *)

Definition exTier (name : string) (floor : Z) (ceiling : option Z) (rate : Z) : PlanTier :=
  {| tier_Id := name; tier_Name := name; Comp_Plan__c := "plan";
     Attainment_Floor__c := Some (int floor);
     Attainment_Ceiling__c := int <$> ceiling;
     Commission_Rate__c := Some (int rate);
     Order__c := None |}.

Definition exTiers : list PlanTier :=
  [ exTier "Base" 0 (Some 100%Z) 10;
    exTier "Accelerator" 100 (Some 125%Z) 15;
    exTier "Super" 125 None 20 ].

(** A tier with floor 0, a ceiling that is present and 0, and rate 10. *)
Definition zeroCeilingTier : PlanTier := exTier "Flat" 0 (Some 0%Z) 10.

(** A tier whose ceiling is present and 0, under a capped tier with a
    higher floor. *)
Definition zeroCeilingBelowMid : list PlanTier :=
  [ exTier "Zero" 0 (Some 0%Z) 10; exTier "Mid" 50 (Some 60%Z) 15 ].

(** A schedule without an uncapped tier, in descending order. *)
Definition cappedTiers : list PlanTier :=
  [ exTier "Accelerator" 100 (Some 125%Z) 15;
    exTier "Base" 0 (Some 100%Z) 10 ].

Definition exDeal (id : string) (amount : Z) (closeDate : Z) : SalesforceOpportunity :=
  {| opp_Id := id; opp_Name := id; Amount := Some (int amount);
     StageName := "Closed Won"; CloseDate := closeDate; OwnerId := "rep" |}.

(** Four deals out of order, two of them closed on the same date. *)
Definition exDeals : list SalesforceOpportunity :=
  [ exDeal "d3" 40000 3; exDeal "d2a" 30000 2; exDeal "d1" 60000 1; exDeal "d2b" 20000 2 ].

(** A store holding [cappedTiers] and [exDeals], each under reference 1. *)
Definition exStore : Heap.store :=
  {| Heap.tierArrays := {[ 1%positive := cappedTiers ]};
     Heap.dealArrays := {[ 1%positive := exDeals ]} |}.

(** ** The other calculators of calculator.ts *)

(** [bookings * (rate / 100)] *)
Definition calculateSimpleCommission (bookings rate : num) : num :=
  bookings * (rate / int 100).

(** [oppCount * perOppRate] *)
Definition calculateSDRCommission (oppCount perOppRate : num) : num :=
  oppCount * perOppRate.

(** ** Vocabulary for the further properties *)

(** The sum of a list of numbers. *)
Definition Qsum (l : list num) : num := foldr Qcplus 0 l.

(** [tierFloorAmount] and [bookingsInTier] of a tier, as one iteration
    of the aggregate loop computes them, and what the iteration adds to
    [totalCommission]. *)
Definition tierFloorAmountOf (quota : num) (tier : PlanTier) : num :=
  orZero (Attainment_Floor__c tier) / int 100 * quota.

Definition bookingsInTierOf (bookings quota : num) (tier : PlanTier) : num :=
  Math_min_x (Math_max (bookings - tierFloorAmountOf quota tier) 0)
             (xsub (tierCeilingAmountOf quota tier) (tierFloorAmountOf quota tier)).

Definition tierCommissionOf (bookings quota : num) (tier : PlanTier) : num :=
  if ltb 0 (bookingsInTierOf bookings quota tier)
  then bookingsInTierOf bookings quota tier * (orZero (Commission_Rate__c tier) / int 100)
  else 0.

(** The breakdown entries the aggregate loop pushes for a list of tiers. *)
Definition breakdownOf (bookings quota : num) (tiers : list PlanTier) : list TierBreakdown :=
  tiers ≫= λ tier,
    if ltb 0 (bookingsInTierOf bookings quota tier) then
      [ {| tierName := tierLabel tier (orZero (Attainment_Floor__c tier) / int 100)
                         (tierCeilingOf tier);
           bookingsInTier := bookingsInTierOf bookings quota tier;
           rateApplied := orZero (Commission_Rate__c tier) / int 100;
           commissionAmount := tierCommissionOf bookings quota tier |} ]
    else [].

(** A contiguous schedule from the percentage [lo]: the first floor is
    [lo], the ceiling of each tier is present, not 0, not below its
    floor, and is the floor of the next tier; the last tier has no
    ceiling. *)
Fixpoint contiguousFrom (lo : num) (tiers : list PlanTier) : bool :=
  match tiers with
  | [] => false
  | t :: rest =>
      bool_decide (tierFloor t = lo) &&
      match rest with
      | [] => bool_decide (Attainment_Ceiling__c t = None)
      | _ :: _ =>
          match truthy (Attainment_Ceiling__c t) with
          | Some c => leb lo c && contiguousFrom c rest
          | None => false
          end
      end
  end.

(** The uncapped flat tier at rate [R]. *)
Definition flatTier (id name plan : string) (R : num) (order : option num) : PlanTier :=
  {| tier_Id := id; tier_Name := name; Comp_Plan__c := plan;
     Attainment_Floor__c := Some 0;
     Attainment_Ceiling__c := None;
     Commission_Rate__c := Some R;
     Order__c := order |}.


(** The deal amount the attribution loop reads: [deal.Amount || 0]. *)
Definition dealAmountOf (d : SalesforceOpportunity) : num := orZero (Amount d).

(** ** Statements and their views (src/components)

    The numbers the dashboard, the statement card and the statement
    detail view compute from a [CompStatement] before they format them.
    Of the record, the fields these computations read are kept. *)

Record CompStatement : Type := mkCompStatement {
  stmt_Id : string;
  Fiscal_Period__c : string;
  Status__c : string;
  Quota_Amount__c : option num;
  Achieved_Amount__c : option num;
  Gross_Commission__c : option num;
  Adjustments_Amount__c : option num;
  Net_Commission__c : option num;
}.

Global Instance CompStatement_eq_dec : EqDecision CompStatement.
Proof. solve_decision. Defined.

(** [x || y] on optional numbers: [x] when it is truthy, else [y] as it
    is. *)
Definition orElse (x y : option num) : option num :=
  match truthy x with
  | Some q => Some q
  | None => y
  end.

(** components/dashboard/StatementCard.tsx *)
Module StatementCard.

Definition quota (statement : CompStatement) : num :=
  orZero (Quota_Amount__c statement).

Definition achieved (statement : CompStatement) : num :=
  orZero (Achieved_Amount__c statement).

(** [quota > 0 ? (achieved / quota) * 100 : 0] *)
Definition attainment (statement : CompStatement) : num :=
  if ltb 0 (quota statement)
  then (achieved statement / quota statement) * int 100
  else 0.

(** [statement.Net_Commission__c || statement.Gross_Commission__c || 0] *)
Definition commission (statement : CompStatement) : num :=
  orZero (orElse (Net_Commission__c statement) (Gross_Commission__c statement)).

End StatementCard.

(** components/statements/StatementDetailView.tsx *)
Module StatementDetailView.

Definition quota (statement : CompStatement) : num :=
  orZero (Quota_Amount__c statement).

Definition achieved (statement : CompStatement) : num :=
  orZero (Achieved_Amount__c statement).

Definition attainment (statement : CompStatement) : num :=
  if ltb 0 (quota statement)
  then (achieved statement / quota statement) * int 100
  else 0.

Definition grossCommission (statement : CompStatement) : num :=
  orZero (Gross_Commission__c statement).

Definition adjustments (statement : CompStatement) : num :=
  orZero (Adjustments_Amount__c statement).

(** [statement.Net_Commission__c || grossCommission + adjustments];
    [+] binds tighter than [||]. *)
Definition netCommission (statement : CompStatement) : num :=
  match truthy (Net_Commission__c statement) with
  | Some net => net
  | None => grossCommission statement + adjustments statement
  end.

(** The upper end of the "Attainment Range" cell of the tier table:
    [tier.Attainment_Ceiling__c ? `${tier.Attainment_Ceiling__c}%` : 'Uncapped'],
    with the number unrendered. *)
Inductive CeilingCell : Type :=
  | Percent (c : num)
  | Uncapped.

Definition ceilingCell (tier : PlanTier) : CeilingCell :=
  match truthy (Attainment_Ceiling__c tier) with
  | Some c => Percent c
  | None => Uncapped
  end.

End StatementDetailView.

(** components/dashboard/RepDashboard.tsx *)
Module RepDashboard.

(** [statements.reduce((sum, s) => sum + (s.Net_Commission__c ||
    s.Gross_Commission__c || 0), 0)] *)
Definition totalEarnings (statements : list CompStatement) : num :=
  fold_left
    (λ sum s, sum + orZero (orElse (Net_Commission__c s) (Gross_Commission__c s)))
    statements 0.

(** [statements.length > 0 ? statements.reduce(...) / statements.length : 0] *)
Definition avgAttainment (statements : list CompStatement) : num :=
  if bool_decide (0 < length statements)%nat then
    fold_left
      (λ sum s,
         let quota := orZero (Quota_Amount__c s) in
         let achieved := orZero (Achieved_Amount__c s) in
         sum + (if ltb 0 quota then (achieved / quota) * int 100 else 0))
      statements 0
    / int (Z.of_nat (length statements))
  else 0.

(** [selectedPeriod === 'all' ? statements
      : statements.filter(s => s.Fiscal_Period__c === selectedPeriod)] *)
Definition filteredStatements (selectedPeriod : string) (statements : list CompStatement)
    : list CompStatement :=
  if decide (selectedPeriod = "all") then statements
  else filter (λ s, Fiscal_Period__c s = selectedPeriod) statements.

(** [[...new Set(values)]]: the distinct values, each at the place of
    its first occurrence. *)
Definition Set_values (values : list string) : list string :=
  fold_left (λ acc v, if decide (v ∈ acc) then acc else acc ++ [v]) values [].

(** [[...new Set(statements.map(s => s.Fiscal_Period__c))].filter(Boolean)]:
    [Boolean] is false on the empty string only. *)
Definition uniquePeriods (statements : list CompStatement) : list string :=
  filter (λ p, p ≠ EmptyString) (Set_values (Fiscal_Period__c <$> statements)).

End RepDashboard.

(** Three statements: two of one period, one without a net commission. *)
Definition exStatements : list CompStatement :=
  [ mkCompStatement "s1" "FY25-Q1" "Paid" (Some (int 100000)) (Some (int 150000))
      (Some (int 18750)) (Some (int (-750))) (Some (int 18000));
    mkCompStatement "s2" "FY25-Q2" "Draft" (Some (int 100000)) (Some (int 50000))
      (Some (int 5000)) (Some (int 200)) None;
    mkCompStatement "s3" "FY25-Q1" "Approved" None (Some (int 10)) None None None ].

(** ** Access levels (services/salesforce.ts, constants)

    Strings are sequences of code units below 256. *)

(** [s.includes(sub)]: [sub] occurs in [s], code unit by code unit. *)
Fixpoint includes (s sub : string) : bool :=
  String.prefix sub s ||
  match s with
  | EmptyString => false
  | String _ s' => includes s' sub
  end.

Definition MANAGER_ROLES : list string :=
  ["CEO"; "VP of Sales"; "Sales Manager"; "Chief of Staff"].
Definition DIRECTOR_ROLES : list string := ["Director of Sales"; "Director"].
Definition VP_ROLES : list string := ["VP of Sales"; "VP"; "CEO"].

Inductive AccessLevel : Type := rep | manager | director | vp | admin.

Global Instance AccessLevel_eq_dec : EqDecision AccessLevel.
Proof. solve_decision. Defined.

Record UserRole : Type := mkUserRole {
  role_Id : string;
  role_Name : string;
}.

(** Of [SalesforceUser], the fields the modelled code reads. *)
Record SalesforceUser : Type := mkSalesforceUser {
  user_Id : string;
  user_Name : string;
  user_UserRole : option UserRole;
}.

(** [user.UserRole?.Name || ''] *)
Definition roleNameOf (user : SalesforceUser) : string :=
  orString (match user_UserRole user with
            | Some r => role_Name r
            | None => EmptyString
            end) EmptyString.

(** [roles.some(role => roleName.includes(role))] *)
Definition someIncluded (roles : list string) (roleName : string) : bool :=
  existsb (λ role, includes roleName role) roles.

Definition getAccessLevel (user : SalesforceUser) : AccessLevel :=
  let roleName := roleNameOf user in
  if someIncluded VP_ROLES roleName then vp
  else if someIncluded DIRECTOR_ROLES roleName then director
  else if someIncluded MANAGER_ROLES roleName then manager
  else rep.


(** ** Session management (services/salesforce.ts, constants)

    [localStorage] is a map from keys to strings, [Date.now()] an
    integer argument.  Time stamps are integers; they are exact here,
    as they are in JavaScript below 2^53. *)
Module Session.

(** STORAGE_KEYS *)
Definition ACCESS_TOKEN : string := "sf_access_token".
Definition REFRESH_TOKEN : string := "sf_refresh_token".
Definition INSTANCE_URL : string := "sf_instance_url".
Definition USER_ID : string := "sf_user_id".
Definition SESSION_START : string := "sf_session_start".

(** SESSION_CONFIG *)
Definition MAX_DURATION_MS : Z := 24 * 60 * 60 * 1000.
Definition WARNING_THRESHOLD_MS : Z := 30 * 60 * 1000.

(** The white space [parseInt] skips, among the code units below 256:
    TAB, LF, VT, FF, CR, SP and NBSP. *)
Definition isWhiteSpace (c : Ascii.ascii) : bool :=
  bool_decide (Ascii.N_of_ascii c ∈ [9; 10; 11; 12; 13; 32; 160]%N).

Fixpoint trimStart (s : string) : string :=
  match s with
  | EmptyString => EmptyString
  | String c r => if isWhiteSpace c then trimStart r else s
  end.

(** The longest prefix of decimal digits, digit by digit. *)
Fixpoint digitsPrefix (s : string) : uint :=
  match s with
  | EmptyString => Nil
  | String c r =>
      match uint_of_char c (Some (digitsPrefix r)) with
      | Some d => d
      | None => Nil
      end
  end.

(** [parseInt(s, 10)]: leading white space, an optional sign, then the
    longest prefix of digits; [None] is NaN. *)
Definition parseInt (s : string) : option Z :=
  let s1 := trimStart s in
  let '(negative, s2) :=
    match s1 with
    | String "-"%char r => (true, r)
    | String "+"%char r => (false, r)
    | _ => (false, s1)
    end in
  match digitsPrefix s2 with
  | Nil => None
  | d => Some (if negative : bool then - Z.of_N (Pos.of_uint d) else Z.of_N (Pos.of_uint d))%Z
  end.

(** [n.toString()] of an integer. *)
Definition toString (n : Z) : string := NilZero.string_of_int (Z.to_int n).

Definition getStoredToken (ls : gmap string string) : option string :=
  ls !! ACCESS_TOKEN.

Definition getStoredInstanceUrl (ls : gmap string string) : option string :=
  ls !! INSTANCE_URL.

Definition getStoredUserId (ls : gmap string string) : option string :=
  ls !! USER_ID.

Definition clearTokens (ls : gmap string string) : gmap string string :=
  delete SESSION_START
    (delete USER_ID (delete INSTANCE_URL (delete REFRESH_TOKEN (delete ACCESS_TOKEN ls)))).

(** [null] for a missing or empty entry and for one that does not start
    with a number. *)
Definition getSessionStart (ls : gmap string string) : option Z :=
  match ls !! SESSION_START with
  | None => None
  | Some stored => if decide (stored = EmptyString) then None else parseInt stored
  end.

(** [!sessionStart]: no start, or the start 0. *)
Definition noStart (sessionStart : option Z) : bool :=
  match sessionStart with
  | None => true
  | Some t => bool_decide (t = 0%Z)
  end.

Definition isSessionExpired (now : Z) (ls : gmap string string) : bool :=
  let sessionStart := getSessionStart ls in
  if noStart sessionStart then true
  else bool_decide (now - default 0 sessionStart > MAX_DURATION_MS)%Z.

Definition isSessionExpiringSoon (now : Z) (ls : gmap string string) : bool :=
  let sessionStart := getSessionStart ls in
  if noStart sessionStart then false
  else
    let elapsed := (now - default 0 sessionStart)%Z in
    let remaining := (MAX_DURATION_MS - elapsed)%Z in
    bool_decide (remaining > 0)%Z && bool_decide (remaining ≤ WARNING_THRESHOLD_MS)%Z.

Definition getSessionTimeRemaining (now : Z) (ls : gmap string string) : Z :=
  let sessionStart := getSessionStart ls in
  if noStart sessionStart then 0%Z
  else
    let remaining := (MAX_DURATION_MS - (now - default 0 sessionStart))%Z in
    Z.max 0 remaining.

Definition extendSession (now : Z) (ls : gmap string string) : gmap string string :=
  <[SESSION_START := toString now]> ls.

End Session.

(** ** The authentication check of AuthContext (checkAuth, stored-token branch)

    The state the check sets ([isAuthenticated], [authError]) and the
    storage it leaves. *)

(** Truthiness of [getItem]'s result: [null] and the empty string are
    falsy. *)
Definition truthyString (x : option string) : bool :=
  match x with
  | Some v => bool_decide (v ≠ EmptyString)
  | None => false
  end.

Record AuthCheck : Type := mkAuthCheck {
  isAuthenticated : bool;
  authError : option string;
  storageAfter : gmap string string;
}.

Definition checkStoredAuth (now : Z) (ls : gmap string string) : AuthCheck :=
  let token := Session.getStoredToken ls in
  let sessionValid := negb (Session.isSessionExpired now ls) in
  if truthyString token && sessionValid then
    {| isAuthenticated := true; authError := None; storageAfter := ls |}
  else if truthyString token && negb sessionValid then
    {| isAuthenticated := false;
       authError := Some "Your session has expired. Please log in again.";
       storageAfter := Session.clearTokens ls |}
  else
    {| isAuthenticated := false; authError := None; storageAfter := ls |}.

(** The order of the floors of two results of the tier-matching rule;
    no tier is below every tier. *)
Definition floorLe (x y : option PlanTier) : Prop :=
  match x, y with
  | None, _ => True
  | Some t, Some t' => tierFloor t ≤ tierFloor t'
  | Some _, None => False
  end.

(** ** Further example data *)

(** Three deals out of order, no two closed on the same date. *)
Definition exDealsDistinct : list SalesforceOpportunity :=
  [ exDeal "d3" 40000 3; exDeal "d1" 60000 1; exDeal "d2" 30000 2 ].



(** A storage with a token, a session start and a key of another
    application. *)
Definition exStorage : gmap string string :=
  {[ Session.ACCESS_TOKEN := "token";
     Session.SESSION_START := "1700000000000";
     "theme" := "dark" ]}.

(** ** The aggregate calculator on IEEE 754 doubles

    [calculateTieredCommission] and [calculateSimpleCommission] once
    more, on binary64 numbers: precision 53, exponent bound 1024, every
    operation rounded to nearest even, with signed zeros, infinities and
    NaN ([SpecFloat], the specification of the hardware floats). *)
Module Binary64.
Import SpecFloat.

Abbreviation number := spec_float (only parsing).

Definition prec : Z := 53.
Definition emax : Z := 1024.

(** An integer literal. *)
Definition int (z : Z) : number := binary_normalize prec emax z 0 false.

Definition Infinity : number := S754_infinity false.
Definition NaN : number := S754_nan.

Definition add : number → number → number := SFadd prec emax.
Definition sub : number → number → number := SFsub prec emax.
Definition mul : number → number → number := SFmul prec emax.
Definition div : number → number → number := SFdiv prec emax.

(** [x < y], [x <= y] and [x === y]; all three are false on NaN. *)
Definition ltb : number → number → bool := SFltb.
Definition leb : number → number → bool := SFleb.
Definition strictEquals : number → number → bool := SFeqb.

Definition isNaN (x : number) : bool :=
  match x with
  | S754_nan => true
  | _ => false
  end.

Definition isNegativeZero (x : number) : bool :=
  match x with
  | S754_zero true => true
  | _ => false
  end.

(** [Math.max(x, y)] and [Math.min(x, y)]: NaN when an argument is NaN,
    and -0 is below +0. *)
Definition Math_max (x y : number) : number :=
  if isNaN x || isNaN y then NaN
  else if ltb x y then y
  else if ltb y x then x
  else if isNegativeZero x then y else x.

Definition Math_min (x y : number) : number :=
  if isNaN x || isNaN y then NaN
  else if ltb x y then x
  else if ltb y x then y
  else if isNegativeZero x then x else y.

(** Truthiness of an optional number: absent, +0, -0 and NaN are falsy. *)
Definition truthy (x : option number) : option number :=
  match x with
  | Some (S754_zero _) | Some S754_nan | None => None
  | Some q => Some q
  end.

(** [x || 0] *)
Definition orZero (x : option number) : number := default (int 0) (truthy x).

Record PlanTier : Type := mkPlanTier {
  tier_Id : string;
  tier_Name : string;
  Comp_Plan__c : string;
  Attainment_Floor__c : option number;
  Attainment_Ceiling__c : option number;
  Commission_Rate__c : option number;
  Order__c : option number;
}.

(** The name of a breakdown entry: the tier's [Name], or the template
    literal with its numeric holes unrendered; no ceiling percentage
    stands for ['Uncapped']. *)
Inductive TierLabel : Type :=
  | Named (s : string)
  | Range (floorPct : number) (ceilingPct : option number).

Record TierBreakdown : Type := mkTierBreakdown {
  tierName : TierLabel;
  bookingsInTier : number;
  rateApplied : number;
  commissionAmount : number;
}.

Record CommissionCalculation : Type := mkCommissionCalculation {
  grossCommission : number;
  tierBreakdown : list TierBreakdown;
  attainmentPercent : number;
}.

Record TieredState : Type := mkTieredState {
  totalCommission : number;
  breakdown : list TierBreakdown;
}.

(** [(a.Attainment_Floor__c || 0) - (b.Attainment_Floor__c || 0)]; [sort]
    places [a] behind [b] when the comparator is above 0, and reads NaN
    as 0. *)
Definition tierCompare (a b : PlanTier) : number :=
  sub (orZero (Attainment_Floor__c a)) (orZero (Attainment_Floor__c b)).

Definition sortTiers (tiers : list PlanTier) : list PlanTier :=
  Array_sort (λ a b, ltb (int 0) (tierCompare a b)) tiers.

(** [tier.Attainment_Ceiling__c ? tier.Attainment_Ceiling__c / 100 : Infinity] *)
Definition tierCeilingOf (tier : PlanTier) : number :=
  match truthy (Attainment_Ceiling__c tier) with
  | Some c => div c (int 100)
  | None => Infinity
  end.

Definition tierLabel (tier : PlanTier) (tierFloor tierCeiling : number) : TierLabel :=
  if decide (tier_Name tier = EmptyString)
  then Range (mul tierFloor (int 100))
             (if strictEquals tierCeiling Infinity then None
              else Some (mul tierCeiling (int 100)))
  else Named (tier_Name tier).

(** One iteration of [for (const tier of sortedTiers)]. *)
Definition tieredStep (bookings quota : number) (st : TieredState) (tier : PlanTier)
    : TieredState :=
  let tierFloor := div (orZero (Attainment_Floor__c tier)) (int 100) in
  let tierCeiling := tierCeilingOf tier in
  let tierRate := div (orZero (Commission_Rate__c tier)) (int 100) in
  let tierFloorAmount := mul tierFloor quota in
  let tierCeilingAmount :=
    if strictEquals tierCeiling Infinity then Infinity else mul tierCeiling quota in
  let bookingsAboveFloor := Math_max (sub bookings tierFloorAmount) (int 0) in
  let tierRange := sub tierCeilingAmount tierFloorAmount in
  let bookingsInTier := Math_min bookingsAboveFloor tierRange in
  if ltb (int 0) bookingsInTier then
    let tierCommission := mul bookingsInTier tierRate in
    {| totalCommission := add (totalCommission st) tierCommission;
       breakdown := breakdown st ++
         [ {| tierName := tierLabel tier tierFloor tierCeiling;
              bookingsInTier := bookingsInTier;
              rateApplied := tierRate;
              commissionAmount := tierCommission |} ] |}
  else st.

Definition calculateTieredCommission (bookings quota : number) (tiers : list PlanTier)
    : CommissionCalculation :=
  if leb quota (int 0) then
    {| grossCommission := int 0; tierBreakdown := []; attainmentPercent := int 0 |}
  else
    let attainment := div bookings quota in
    let sortedTiers := sortTiers tiers in
    let st := fold_left (tieredStep bookings quota) sortedTiers
                {| totalCommission := int 0; breakdown := [] |} in
    {| grossCommission := totalCommission st;
       tierBreakdown := breakdown st;
       attainmentPercent := mul attainment (int 100) |}.

(** [bookings * (rate / 100)] *)
Definition calculateSimpleCommission (bookings rate : number) : number :=
  mul bookings (div rate (int 100)).

(** The uncapped flat tier at rate [R]. *)
Definition flatTier (id name plan : string) (R : number) (order : option number)
    : PlanTier :=
  {| tier_Id := id; tier_Name := name; Comp_Plan__c := plan;
     Attainment_Floor__c := Some (int 0);
     Attainment_Ceiling__c := None;
     Commission_Rate__c := Some R;
     Order__c := order |}.

(** Example tiers with whole-number percentages. *)
Definition exTier (name : string) (floor : Z) (ceiling : option Z) (rate : Z) : PlanTier :=
  {| tier_Id := name; tier_Name := name; Comp_Plan__c := "plan";
     Attainment_Floor__c := Some (int floor);
     Attainment_Ceiling__c := int <$> ceiling;
     Commission_Rate__c := Some (int rate);
     Order__c := None |}.

(** The schedule of the worked example. *)
Definition exTiers : list PlanTier :=
  [ exTier "Base" 0 (Some 100%Z) 10;
    exTier "Accelerator" 100 (Some 125%Z) 15;
    exTier "Super" 125 None 20 ].

(** Three uncapped tiers on the same floor. *)
Definition equalFloorTiers : list PlanTier :=
  [ exTier "a" 0 None 10; exTier "b" 0 None 20; exTier "c" 0 None 30 ].

End Binary64.

(** ** Facts about numbers *)

Lemma leb_le (x y : num) : leb x y = true ↔ x ≤ y.
Proof. unfold leb. by rewrite bool_decide_eq_true. Qed.

Lemma leb_gt (x y : num) : leb x y = false ↔ y < x.
Proof. unfold leb. rewrite bool_decide_eq_false. symmetry. apply Qclt_nge. Qed.

Lemma ltb_lt (x y : num) : ltb x y = true ↔ x < y.
Proof. unfold ltb. by rewrite bool_decide_eq_true. Qed.

Lemma ltb_ge (x y : num) : ltb x y = false ↔ y ≤ x.
Proof. unfold ltb. rewrite bool_decide_eq_false. symmetry. apply Qcle_ngt. Qed.

Lemma Qc_sub_pos (x y : num) : 0 < x - y ↔ y < x.
Proof.
  rewrite (Qcplus_lt_mono_r 0 (x - y) y).
  by replace (x - y + y) with x by ring; rewrite Qcplus_0_l.
Qed.

Lemma orZero_Some (q : num) : orZero (Some q) = q.
Proof. unfold orZero, truthy. by case_decide; simplify_eq. Qed.

Lemma Math_max_nonneg (x : num) : 0 ≤ x → Math_max x 0 = x.
Proof.
  intros Hx. unfold Math_max. destruct (leb x 0) eqn:E; [|done].
  apply leb_le in E. by apply Qcle_antisym.
Qed.

(** ** Facts about [Array_sort] *)

Lemma StronglySorted_weaken {A} (R S : relation A) (l : list A) :
  (∀ a b, R a b → S a b) → StronglySorted R l → StronglySorted S l.
Proof.
  intros HRS. induction 1 as [|x l Hl IH Hx]; constructor; [done|].
  eapply Forall_impl; [exact Hx|]. intros y. apply HRS.
Qed.

Section SortFacts.
Context {A : Type} (after : A → A → bool).

Lemma sort_insert_perm (x : A) (l : list A) :
  sort_insert after x l ≡ₚ x :: l.
Proof.
  induction l as [|y l IH]; simpl; [done|].
  destruct (after x y); [|done].
  rewrite IH. apply Permutation_swap.
Qed.

Lemma Array_sort_perm (l : list A) : Array_sort after l ≡ₚ l.
Proof.
  induction l as [|x l IH]; simpl; [done|].
  by rewrite sort_insert_perm, IH.
Qed.

Section Ordered.
Hypothesis after_asym : ∀ x y, after x y = true → after y x = false.
Hypothesis before_trans : ∀ x y z, before after x y → before after y z → before after x z.

Lemma sort_insert_sorted (x : A) (l : list A) :
  StronglySorted (before after) l → StronglySorted (before after) (sort_insert after x l).
Proof using after_asym before_trans.
  induction 1 as [|y l Hl IH Hy]; simpl.
  - by repeat constructor.
  - destruct (after x y) eqn:E.
    + constructor; [done|].
      rewrite sort_insert_perm. constructor; [by apply after_asym|done].
    + constructor; [by constructor|].
      constructor; [done|].
      eapply Forall_impl; [exact Hy|]. intros z Hz.
      by eapply before_trans.
Qed.

Lemma Array_sort_sorted (l : list A) : StronglySorted (before after) (Array_sort after l).
Proof using after_asym before_trans.
  induction l as [|x l IH]; simpl; [constructor|].
  by apply sort_insert_sorted.
Qed.
End Ordered.

(** Stability: a class [P] of elements none of which has to come after
    another keeps its order. *)
Section Stable.
Context (P : A → Prop) `{!∀ x, Decision (P x)}.
Hypothesis P_tied : ∀ x y, P x → P y → after x y = false.

Lemma sort_insert_filter (x : A) (l : list A) :
  filter P (sort_insert after x l) = filter P (x :: l).
Proof using P_tied.
  induction l as [|y l IH]; simpl; [done|].
  destruct (after x y) eqn:E; [|done].
  rewrite !filter_cons in *.
  destruct (decide (P y)) as [Hy|Hy], (decide (P x)) as [Hx|Hx];
    try (by rewrite IH).
  by rewrite P_tied in E.
Qed.

Lemma Array_sort_filter (l : list A) :
  filter P (Array_sort after l) = filter P l.
Proof using P_tied.
  induction l as [|x l IH]; simpl; [done|].
  rewrite sort_insert_filter, !filter_cons. by rewrite IH.
Qed.
End Stable.
End SortFacts.

(** A list is determined by being sorted on a key and by the order of
    the elements of each key: any stable sort returns the same array. *)
Section Unique.
Context {A K : Type} `{EqDecision K} (key : A → K) (R : relation K).
Hypothesis R_antisym : ∀ j k, R j k → R k j → j = k.

Lemma sorted_stable_unique (l1 l2 : list A) :
  StronglySorted (λ a b, R (key a) (key b)) l1 →
  StronglySorted (λ a b, R (key a) (key b)) l2 →
  (∀ k, filter (λ a, key a = k) l1 = filter (λ a, key a = k) l2) →
  l1 = l2.
Proof using R_antisym.
  intros H1. revert l2.
  induction H1 as [|x l1 Hs1 IH Hx]; intros l2 H2 Hf.
  - destruct l2 as [|y l2]; [done|].
    specialize (Hf (key y)). by rewrite filter_cons_True in Hf.
  - destruct l2 as [|y l2].
    { specialize (Hf (key x)). by rewrite filter_cons_True in Hf. }
    apply StronglySorted_inv in H2 as [Hs2 Hy].
    rewrite Forall_forall in Hx, Hy.
    assert (key x = key y) as Hk.
    { assert (x ∈ y :: l2) as Hx2.
      { apply (list_elem_of_filter (λ a, key a = key x) (y :: l2) x).
        rewrite <-Hf, filter_cons_True by done. left. }
      assert (y ∈ x :: l1) as Hy1.
      { apply (list_elem_of_filter (λ a, key a = key y) (x :: l1) y).
        rewrite Hf, filter_cons_True by done. left. }
      apply elem_of_cons in Hx2 as [->|Hx2]; [done|].
      apply elem_of_cons in Hy1 as [->|Hy1]; [done|].
      apply R_antisym; auto. }
    assert (x = y) as ->.
    { specialize (Hf (key x)).
      rewrite !filter_cons_True in Hf by done. by simplify_eq. }
    f_equal. apply IH; [done|].
    intros k. specialize (Hf k). rewrite !filter_cons in Hf.
    destruct (decide (key y = k)); by simplify_eq.
Qed.
End Unique.

(** *** The two sorts of the engine *)

Lemma tier_after_lt (a b : PlanTier) :
  ltb 0 (tierCompare a b) = true ↔ tierFloor b < tierFloor a.
Proof. rewrite ltb_lt. unfold tierCompare. apply Qc_sub_pos. Qed.

Lemma tier_before_le (a b : PlanTier) :
  before (λ a b, ltb 0 (tierCompare a b)) a b ↔ tierFloor a ≤ tierFloor b.
Proof.
  unfold before. rewrite <-not_true_iff_false, tier_after_lt. symmetry. apply Qcle_ngt.
Qed.

Lemma sortTiers_perm (tiers : list PlanTier) : sortTiers tiers ≡ₚ tiers.
Proof. apply Array_sort_perm. Qed.

Lemma sortTiers_sorted (tiers : list PlanTier) :
  StronglySorted (λ a b, tierFloor a ≤ tierFloor b) (sortTiers tiers).
Proof.
  eapply StronglySorted_weaken; [| apply Array_sort_sorted ].
  - intros a b. apply tier_before_le.
  - intros x y. rewrite tier_after_lt, <-not_true_iff_false, tier_after_lt.
    intros H1 H2. apply (Qclt_not_le _ _ H1). by apply Qclt_le_weak.
  - intros x y z. rewrite !tier_before_le. apply Qcle_trans.
Qed.

Lemma sortTiers_stable (f : num) (tiers : list PlanTier) :
  filter (λ t, tierFloor t = f) (sortTiers tiers) = filter (λ t, tierFloor t = f) tiers.
Proof.
  apply Array_sort_filter. intros x y Hx Hy.
  apply tier_before_le. rewrite Hx, Hy. apply Qcle_refl.
Qed.

(** [sortTiers] is the one stable arrangement by ascending floor. *)
Lemma sortTiers_unique (tiers sorted : list PlanTier) :
  StronglySorted (λ a b, tierFloor a ≤ tierFloor b) sorted →
  (∀ f, filter (λ t, tierFloor t = f) sorted = filter (λ t, tierFloor t = f) tiers) →
  sorted = sortTiers tiers.
Proof.
  intros Hs Hf. apply (sorted_stable_unique tierFloor Qcle).
  - intros j k. apply Qcle_antisym.
  - done.
  - apply sortTiers_sorted.
  - intros f. by rewrite Hf, sortTiers_stable.
Qed.

Lemma deal_after_lt (a b : SalesforceOpportunity) :
  bool_decide (0 < dealCompare a b)%Z = true ↔ (CloseDate b < CloseDate a)%Z.
Proof. rewrite bool_decide_eq_true. unfold dealCompare. lia. Qed.

Lemma deal_before_le (a b : SalesforceOpportunity) :
  before (λ a b, bool_decide (0 < dealCompare a b)%Z) a b ↔ (CloseDate a ≤ CloseDate b)%Z.
Proof. unfold before. rewrite <-not_true_iff_false, deal_after_lt. lia. Qed.

Lemma sortDeals_perm (deals : list SalesforceOpportunity) : sortDeals deals ≡ₚ deals.
Proof. apply Array_sort_perm. Qed.

Lemma sortDeals_sorted (deals : list SalesforceOpportunity) :
  StronglySorted (λ a b, (CloseDate a ≤ CloseDate b)%Z) (sortDeals deals).
Proof.
  eapply StronglySorted_weaken; [| apply Array_sort_sorted ].
  - intros a b. apply deal_before_le.
  - intros x y. rewrite deal_after_lt, <-not_true_iff_false, deal_after_lt. lia.
  - intros x y z. rewrite !deal_before_le. lia.
Qed.

Lemma sortDeals_stable (t : Z) (deals : list SalesforceOpportunity) :
  filter (λ d, CloseDate d = t) (sortDeals deals) = filter (λ d, CloseDate d = t) deals.
Proof.
  apply Array_sort_filter. intros x y Hx Hy.
  apply deal_before_le. lia.
Qed.

(** [sortDeals] is the one stable arrangement by ascending close date. *)
Lemma sortDeals_unique (deals sorted : list SalesforceOpportunity) :
  StronglySorted (λ a b, (CloseDate a ≤ CloseDate b)%Z) sorted →
  (∀ t, filter (λ d, CloseDate d = t) sorted = filter (λ d, CloseDate d = t) deals) →
  sorted = sortDeals deals.
Proof.
  intros Hs Hf. apply (sorted_stable_unique CloseDate Z.le).
  - intros j k. lia.
  - done.
  - apply sortDeals_sorted.
  - intros t. by rewrite Hf, sortDeals_stable.
Qed.

(** ** Facts about the tier-matching rule *)

Lemma findTierFrom_cons (a : num) (acc : option PlanTier) (t : PlanTier) (l : list PlanTier) :
  findTierFrom a acc (t :: l) =
  if exactMatch a t then Some t
  else if leb (tierFloor t) a then findTierFrom a (Some t) l
  else findTierFrom a acc l.
Proof. reflexivity. Qed.

(** An exact match behind tiers that do not match exactly ends the scan. *)
Lemma findTierFrom_exact (a : num) (acc : option PlanTier)
    (pre : list PlanTier) (t : PlanTier) (post : list PlanTier) :
  Forall (λ u, exactMatch a u = false) pre →
  exactMatch a t = true →
  findTierFrom a acc (pre ++ t :: post) = Some t.
Proof.
  intros Hpre Ht. revert acc.
  induction Hpre as [|u pre Hu _ IH]; intros acc; simpl app; rewrite findTierFrom_cons.
  - by rewrite Ht.
  - rewrite Hu. by destruct (leb (tierFloor u) a).
Qed.

(** Without an exact match the scan ends on the last tier whose floor
    is at or below the attainment, if there is one. *)
Lemma findTierFrom_fallback (a : num) (acc : option PlanTier) (l : list PlanTier) :
  Forall (λ u, exactMatch a u = false) l →
  (Forall (λ u, a < tierFloor u) l ∧ findTierFrom a acc l = acc) ∨
  (∃ l1 t l2, l = l1 ++ t :: l2 ∧ tierFloor t ≤ a ∧
              Forall (λ u, a < tierFloor u) l2 ∧
              findTierFrom a acc l = Some t).
Proof.
  intros Hl. revert acc.
  induction Hl as [|u l Hu _ IH]; intros acc.
  - left. by split.
  - rewrite findTierFrom_cons, Hu.
    destruct (leb (tierFloor u) a) eqn:E.
    + apply leb_le in E. right.
      destruct (IH (Some u)) as [[Hall Hr]|(l1 & t & l2 & -> & Ht & Hall & Hr)].
      * by exists [], u, l.
      * by exists (u :: l1), t, l2.
    + apply leb_gt in E.
      destruct (IH acc) as [[Hall Hr]|(l1 & t & l2 & -> & Ht & Hall & Hr)].
      * left. split; [by constructor|done].
      * right. by exists (u :: l1), t, l2.
Qed.

(** Save for a ceiling of 0, the test in front of the [break] is
    containment in [floor, ceiling). *)
Lemma exactMatch_inRange (a : num) (t : PlanTier) :
  Attainment_Ceiling__c t ≠ Some 0 →
  exactMatch a t = true ↔ inRange a t.
Proof.
  intros Hc. unfold exactMatch, inRange, tierCeilingPct, orInfinity, truthy.
  rewrite andb_true_iff, leb_le.
  destruct (Attainment_Ceiling__c t) as [c|]; [|simpl; tauto].
  case_decide as Hz; [by subst c|]. simpl. by rewrite ltb_lt.
Qed.

Lemma exactMatch_floor (a : num) (t : PlanTier) :
  exactMatch a t = true → tierFloor t ≤ a.
Proof. unfold exactMatch. rewrite andb_true_iff, leb_le. tauto. Qed.

(** No tier with its floor at or below the attainment: no match. *)
Lemma findTierFrom_none (a : num) (acc : option PlanTier) (l : list PlanTier) :
  Forall (λ u, ¬ tierFloor u ≤ a) l → findTierFrom a acc l = acc.
Proof.
  induction 1 as [|u l Hu _ IH]; [done|].
  rewrite findTierFrom_cons. unfold exactMatch.
  destruct (leb (tierFloor u) a) eqn:E; [by apply leb_le in E|done].
Qed.

(** The matcher cannot tell a ceiling of 0 from a missing ceiling. *)
Lemma exactMatch_withoutZeroCeiling (a : num) (t : PlanTier) :
  exactMatch a (withoutZeroCeiling t) = exactMatch a t.
Proof.
  unfold withoutZeroCeiling. case_decide as Hc; [|done].
  unfold exactMatch, tierCeilingPct, orInfinity, truthy, tierFloor. simpl.
  rewrite Hc. by case_decide.
Qed.

Lemma tierFloor_withoutZeroCeiling (t : PlanTier) :
  tierFloor (withoutZeroCeiling t) = tierFloor t.
Proof. unfold withoutZeroCeiling. by case_decide. Qed.

Lemma findTierFrom_withoutZeroCeiling (a : num) (acc : option PlanTier) (l : list PlanTier) :
  findTierFrom a (withoutZeroCeiling <$> acc) (withoutZeroCeiling <$> l)
  = withoutZeroCeiling <$> findTierFrom a acc l.
Proof.
  revert acc. induction l as [|t l IH]; intros acc; [done|].
  rewrite fmap_cons, !findTierFrom_cons.
  rewrite exactMatch_withoutZeroCeiling, tierFloor_withoutZeroCeiling.
  destruct (exactMatch a t); [done|].
  destruct (leb (tierFloor t) a); [apply (IH (Some t))|apply IH].
Qed.

(** ** Facts about the deal loop *)

Lemma fold_left_invariant {S X} (f : S → X → S) (I : S → Prop) (l : list X) (s : S) :
  (∀ s x, x ∈ l → I s → I (f s x)) → I s → I (fold_left f l s).
Proof.
  revert s. induction l as [|x l IH]; intros s Hf Hs; simpl; [done|].
  apply IH.
  - intros s' y Hy. apply Hf. by right.
  - apply Hf; [by left|done].
Qed.

Lemma calculateDealByDealCommission_unfold (deals : list SalesforceOpportunity)
    (quota : num) (tiers : list PlanTier) :
  calculateDealByDealCommission deals quota tiers = [] ∨
  calculateDealByDealCommission deals quota tiers =
    dealCommissions
      (fold_left (dealStep quota (sortTiers tiers)) (sortDeals deals)
         {| st_runningBookings := 0; dealCommissions := [] |}).
Proof.
  unfold calculateDealByDealCommission.
  destruct (leb quota 0 || bool_decide (length deals = 0%nat)); auto.
Qed.

Lemma deal_records (deals : list SalesforceOpportunity) (quota : num) (tiers : list PlanTier) :
  Forall (recordOf quota (sortTiers tiers)) (calculateDealByDealCommission deals quota tiers).
Proof.
  destruct (calculateDealByDealCommission_unfold deals quota tiers) as [->| ->]; [done|].
  apply (fold_left_invariant _ (λ st, Forall _ (dealCommissions st))); [|done].
  intros st deal _ Hst. simpl. apply Forall_app. split; [done|].
  by repeat constructor.
Qed.

Lemma dealLoop_records (quota : num) (sortedTiers : list PlanTier)
    (ds : list SalesforceOpportunity) (st : DealState) :
  ∃ rs, dealCommissions (fold_left (dealStep quota sortedTiers) ds st)
        = dealCommissions st ++ rs ∧ Forall2 recordFor ds rs.
Proof.
  revert st. induction ds as [|d ds IH]; intros st; simpl.
  - exists []. by rewrite app_nil_r.
  - destruct (IH (dealStep quota sortedTiers st d)) as (rs & -> & Hrs).
    eexists (_ :: rs). simpl. rewrite <-app_assoc. split; [done|].
    by constructor.
Qed.

Lemma StronglySorted_snoc {A} (R : relation A) (l : list A) (x : A) :
  StronglySorted R l → Forall (λ y, R y x) l → StronglySorted R (l ++ [x]).
Proof.
  induction 1 as [|y l Hl IH Hy]; intros Hx; simpl.
  - by repeat constructor.
  - apply Forall_cons in Hx as [Hyx Hx]. constructor; [by apply IH|].
    apply Forall_app. split; [done|]. by constructor.
Qed.

Lemma dealStep_runningSorted (quota : num) (sortedTiers : list PlanTier)
    (st : DealState) (d : SalesforceOpportunity) :
  0 ≤ orZero (Amount d) → runningSorted st → runningSorted (dealStep quota sortedTiers st d).
Proof.
  intros Hd [Hs Hb].
  assert (st_runningBookings st ≤ st_runningBookings st + orZero (Amount d)) as Hle.
  { rewrite <-(Qcplus_0_r (st_runningBookings st)) at 1.
    by apply Qcplus_le_mono_l. }
  split; simpl.
  - rewrite fmap_app. apply StronglySorted_snoc; [done|].
    apply Forall_fmap. eapply Forall_impl; [exact Hb|].
    intros r Hr. exact (Qcle_trans _ _ _ Hr Hle).
  - apply Forall_app. split.
    + eapply Forall_impl; [exact Hb|]. intros r Hr. exact (Qcle_trans _ _ _ Hr Hle).
    + repeat constructor. apply Qcle_refl.
Qed.

(** ** The store-level calculators compute the value-level ones *)

Lemma unchanged_refl (σ : Heap.store) : Heap.unchanged σ σ.
Proof. by split. Qed.

Lemma fresh_lookup {V} (m : gmap positive V) : m !! fresh (dom m) = None.
Proof. apply not_elem_of_dom, is_fresh. Qed.

Lemma insert_fresh_lookup {V} (m : gmap positive V) (v : V) (r : positive) (w : V) :
  m !! r = Some w → <[fresh (dom m) := v]> m !! r = Some w.
Proof.
  intros Hr. rewrite lookup_insert_ne; [done|].
  intros <-. by rewrite fresh_lookup in Hr.
Qed.

Lemma heap_calculateTieredCommission_spec (bookings quota : num) (tiers : positive)
    (σ : Heap.store) (ts : list PlanTier) :
  Heap.tierArrays σ !! tiers = Some ts →
  ∃ σ', Heap.calculateTieredCommission bookings quota tiers σ
          = Some (calculateTieredCommission bookings quota ts, σ') ∧
        Heap.unchanged σ σ'.
Proof.
  intros Hts. unfold Heap.calculateTieredCommission, calculateTieredCommission.
  destruct (leb quota 0).
  { exists σ. split; [done|apply unchanged_refl]. }
  unfold Heap.bind, Heap.spreadTiers, Heap.sortTiersAt, Heap.readTiers, Heap.ret.
  rewrite Hts. simpl. rewrite lookup_insert_eq. simpl. rewrite lookup_insert_eq.
  eexists. split; [done|]. split; simpl; [|done].
  intros r v Hr. rewrite insert_insert_eq. by apply insert_fresh_lookup.
Qed.

Lemma heap_dealLoop_spec (quota : num) (sortedTiers : positive) (sts : list PlanTier)
    (ds : list SalesforceOpportunity) (st : DealState) (σ : Heap.store) :
  Heap.tierArrays σ !! sortedTiers = Some sts →
  Heap.dealLoop quota sortedTiers ds st σ
    = Some (fold_left (dealStep quota sts) ds st, σ).
Proof.
  intros Hsts. revert st. induction ds as [|d ds IH]; intros st; simpl; [done|].
  unfold Heap.bind at 1. unfold Heap.dealStep, Heap.findTierForAttainment.
  unfold Heap.bind, Heap.readTiers, Heap.ret. rewrite Hsts. apply IH.
Qed.

Lemma heap_calculateDealByDealCommission_spec (deals : positive) (quota : num)
    (tiers : positive) (σ : Heap.store)
    (ds : list SalesforceOpportunity) (ts : list PlanTier) :
  Heap.dealArrays σ !! deals = Some ds →
  Heap.tierArrays σ !! tiers = Some ts →
  ∃ σ', Heap.calculateDealByDealCommission deals quota tiers σ
          = Some (calculateDealByDealCommission ds quota ts, σ') ∧
        Heap.unchanged σ σ'.
Proof.
  intros Hds Hts.
  unfold Heap.calculateDealByDealCommission, calculateDealByDealCommission.
  destruct (leb quota 0); simpl.
  { exists σ. split; [done|apply unchanged_refl]. }
  unfold Heap.bind at 1. unfold Heap.readDeals at 1. rewrite Hds.
  destruct (bool_decide (length ds = 0%nat)).
  { exists σ. split; [done|apply unchanged_refl]. }
  unfold Heap.bind at 1. unfold Heap.spreadDeals. rewrite Hds.
  unfold Heap.bind at 1. unfold Heap.sortDealsAt. simpl. rewrite lookup_insert_eq.
  unfold Heap.bind at 1. unfold Heap.spreadTiers. simpl. rewrite Hts.
  unfold Heap.bind at 1. unfold Heap.sortTiersAt. simpl. rewrite lookup_insert_eq.
  unfold Heap.bind at 1. unfold Heap.readDeals. simpl. rewrite lookup_insert_eq.
  unfold Heap.bind at 1.
  erewrite heap_dealLoop_spec; [|simpl; apply lookup_insert_eq].
  eexists. split; [done|]. split; simpl.
  - intros r v Hr. rewrite insert_insert_eq. by apply insert_fresh_lookup.
  - intros r v Hr. rewrite insert_insert_eq. by apply insert_fresh_lookup.
Qed.

(** ** Further facts *)

Lemma int_100_neq_0 : int 100 ≠ 0.
Proof. apply (bool_decide_unpack _). vm_compute. exact I. Qed.

Lemma truthy_nonzero (q : num) : q ≠ 0 → truthy (Some q) = Some q.
Proof. intros Hq. unfold truthy. by case_decide. Qed.

Lemma StronglySorted_app_head {A} (R : relation A) (l1 : list A) (x : A) (l2 : list A) :
  StronglySorted R (l1 ++ x :: l2) → Forall (λ y, R y x) l1.
Proof.
  induction l1 as [|y l1 IH]; simpl; [done|].
  intros [Hs Hy]%StronglySorted_inv. constructor; [|by apply IH].
  rewrite Forall_forall in Hy. apply Hy. set_solver.
Qed.

(** ** Properties of the specification *)

(** The complete result of the worked example, names included. *)
Example worked_example_full :
  calculateTieredCommission (int 150000) (int 100000) exTiers =
  {| grossCommission := int 18750;
     tierBreakdown :=
       [ mkTierBreakdown (Named "Base") (int 100000) (int 10 / int 100) (int 10000);
         mkTierBreakdown (Named "Accelerator") (int 25000) (int 15 / int 100) (int 3750);
         mkTierBreakdown (Named "Super") (int 25000) (int 20 / int 100) (int 5000) ];
     attainmentPercent := int 150 |}.
Proof. by_eval. Qed.

(** C1: for bookings 150000, quota 100000 and the tiers 0-100% at 10%,
    100-125% at 15% and 125%+ at 20% (whatever their names and the
    order in which they are supplied), the aggregate calculator returns
    attainmentPercent 150, a breakdown of three entries with
    bookingsInTier 100000, 25000, 25000 and commission 10000, 3750,
    5000, in ascending-floor order, and grossCommission 18750. *)
Theorem worked_example (name1 name2 name3 : string) (tiers : list PlanTier) :
  tiers ≡ₚ [ exTier name1 0 (Some 100%Z) 10;
             exTier name2 100 (Some 125%Z) 15;
             exTier name3 125 None 20 ] →
  attainmentPercent (calculateTieredCommission (int 150000) (int 100000) tiers)
    = int 150 ∧
  (λ e, (bookingsInTier e, commissionAmount e))
    <$> tierBreakdown (calculateTieredCommission (int 150000) (int 100000) tiers)
    = [ (int 100000, int 10000); (int 25000, int 3750); (int 25000, int 5000) ] ∧
  grossCommission (calculateTieredCommission (int 150000) (int 100000) tiers)
    = int 18750.
Proof.
  intros Hperm. symmetry in Hperm. apply permutations_Permutation in Hperm.
  revert tiers Hperm. apply Forall_forall.
  cbv [permutations interleave exTier fmap list_fmap mbind list_bind app].
  repeat constructor; by_eval.
Qed.

(** C2: when tier A has ceiling 100 and tier B has floor 100, an
    attainment of exactly 100 is not contained in A (the interval
    [floor, ceiling) excludes the ceiling), the tier-matching rule run on
    the schedule of A and B selects B, and so every deal record whose
    running attainment is exactly 100 carries the rate and name of B.
    The schedule is A and B as supplied in this order, or in the other
    order when the floor of A is not 100 as well. *)
Theorem boundary_selects_upper_tier (A B : PlanTier) (tiers : list PlanTier) :
  Attainment_Ceiling__c A = Some (int 100) →
  Attainment_Floor__c B = Some (int 100) →
  tiers = [A; B] ∨ (tiers = [B; A] ∧ tierFloor A ≠ int 100) →
  exactMatch (int 100) A = false ∧
  findTierForAttainment (int 100) (sortTiers tiers) = Some B ∧
  ∀ deals quota r,
    r ∈ calculateDealByDealCommission deals quota tiers →
    attainmentAtDeal r = int 100 →
    commissionRate r = orZero (Commission_Rate__c B) / int 100 ∧
    tierApplied r = orString (tier_Name B) "Base".
Proof.
  intros HA HB Htiers.
  assert (tierFloor B = int 100) as HfB.
  { unfold tierFloor. rewrite HB. apply orZero_Some. }
  assert (exactMatch (int 100) A = false) as HexA.
  { unfold exactMatch, tierCeilingPct, orInfinity.
    rewrite HA, (truthy_nonzero _ int_100_neq_0). simpl.
    apply andb_false_intro2, ltb_ge, Qcle_refl. }
  assert (leb (tierFloor B) (int 100) = true) as HleB.
  { rewrite HfB. apply leb_le, Qcle_refl. }
  assert (∀ acc, findTierFrom (int 100) acc [B] = Some B) as HscanB.
  { intros acc. rewrite findTierFrom_cons, HleB.
    by destruct (exactMatch (int 100) B). }
  assert (findTierFrom (int 100) None [A; B] = Some B) as HscanAB.
  { rewrite findTierFrom_cons, HexA.
    by destruct (leb (tierFloor A) (int 100)); apply HscanB. }
  assert (int 100 < tierFloor A → findTierFrom (int 100) None [B; A] = Some B)
    as HscanBA.
  { intros HfA%leb_gt. rewrite findTierFrom_cons, HleB.
    destruct (exactMatch (int 100) B); [done|].
    by rewrite findTierFrom_cons, HexA, HfA. }
  assert (findTierForAttainment (int 100) (sortTiers tiers) = Some B) as Hfind.
  { unfold findTierForAttainment, sortTiers.
    destruct Htiers as [->|[-> Hne]]; simpl.
    - destruct (ltb 0 (tierCompare A B)) eqn:E; [|done].
      apply tier_after_lt in E. rewrite HfB in E. by apply HscanBA.
    - destruct (ltb 0 (tierCompare B A)) eqn:E; [done|].
      apply HscanBA. apply ltb_ge in E. unfold tierCompare in E.
      fold (tierFloor A) (tierFloor B) in E. rewrite HfB in E.
      destruct (Qclt_le_dec (int 100) (tierFloor A)) as [Hlt|Hle]; [done|].
      destruct Hne. apply Qcle_antisym; [done|].
      apply Qcle_ngt. intros Hlt. apply Qc_sub_pos in Hlt.
      by apply (Qclt_not_le _ _ Hlt). }
  split; [done|]. split; [done|].
  intros deals quota r Hr Hatt.
  pose proof (deal_records deals quota tiers) as Hrec.
  rewrite Forall_forall in Hrec.
  destruct (Hrec r Hr) as (_ & Hrate & _ & Hname).
  by rewrite Hatt, Hfind in Hrate, Hname.
Qed.

(** C3, as amended: when no tier contains the attainment in its
    [floor, ceiling), a ceiling that is missing or 0 counting as
    +infinity (the matcher's own test, [exactMatch]), and some tier has
    its floor at or below the attainment, the tier-matching rule,
    scanning the tiers in ascending-floor order, returns a tier whose
    floor is at or below the attainment and is the greatest such floor;
    and when no tier at all has its floor at or below the attainment, no
    tier matches, and a deal record at that attainment gets commission
    rate 0 and the tier name "Base". *)
Theorem fallback_tier (a : num) (tiers : list PlanTier) :
  (Forall (λ t, exactMatch a t = false) tiers →
   (∃ t, t ∈ tiers ∧ tierFloor t ≤ a) →
   ∃ t, findTierForAttainment a (sortTiers tiers) = Some t ∧
        t ∈ tiers ∧ tierFloor t ≤ a ∧
        ∀ u, u ∈ tiers → tierFloor u ≤ a → tierFloor u ≤ tierFloor t) ∧
  (Forall (λ t, ¬ tierFloor t ≤ a) tiers →
   findTierForAttainment a (sortTiers tiers) = None ∧
   ∀ deals quota r,
     r ∈ calculateDealByDealCommission deals quota tiers →
     attainmentAtDeal r = a →
     commissionRate r = 0 ∧ tierApplied r = "Base").
Proof.
  split.
  - intros Hno (t0 & Ht0 & Hfloor0).
    rewrite <-(sortTiers_perm tiers) in Hno.
    destruct (findTierFrom_fallback a None _ Hno)
      as [[Hall _]|(l1 & t & l2 & Hsplit & Ht & Hall & Hr)].
    + rewrite Forall_forall in Hall.
      rewrite <-(sortTiers_perm tiers) in Ht0.
      by destruct (Qclt_not_le _ _ (Hall t0 Ht0)).
    + exists t. split; [done|].
      assert (∀ u, u ∈ tiers ↔ u ∈ l1 ++ t :: l2) as Hin.
      { intros u. by rewrite <-Hsplit, sortTiers_perm. }
      split; [apply Hin, elem_of_app; right; left|]. split; [done|].
      intros u Hu%Hin Hfu.
      pose proof (sortTiers_sorted tiers) as Hsorted. rewrite Hsplit in Hsorted.
      apply elem_of_app in Hu as [Hu|Hu].
      * apply StronglySorted_app_head in Hsorted.
        rewrite Forall_forall in Hsorted. by apply Hsorted.
      * apply elem_of_cons in Hu as [->|Hu]; [apply Qcle_refl|].
        rewrite Forall_forall in Hall.
        by destruct (Qclt_not_le _ _ (Hall u Hu)).
  - intros Hnone.
    assert (findTierForAttainment a (sortTiers tiers) = None) as Hfind.
    { apply findTierFrom_none. by rewrite sortTiers_perm. }
    split; [done|].
    intros deals quota r Hr Hatt.
    pose proof (deal_records deals quota tiers) as Hrec.
    rewrite Forall_forall in Hrec.
    destruct (Hrec r Hr) as (_ & Hrate & _ & Hname).
    by rewrite Hatt, Hfind in Hrate, Hname.
Qed.

(** C3 as stated fails at attainment 100 on the tiers Zero (floor 0,
    ceiling 0) and Mid (floor 50, ceiling 60): neither range
    [floor, ceiling) contains 100, yet the matcher returns Zero, whose
    ceiling of 0 it reads as +infinity, and not Mid, the tier with the
    greatest floor at or below 100; a deal that brings the attainment
    to 100 is recorded under Zero at its rate. *)
Lemma fallback_tier_counterexample :
  ¬ inRange (int 100) (exTier "Zero" 0 (Some 0%Z) 10) ∧
  ¬ inRange (int 100) (exTier "Mid" 50 (Some 60%Z) 15) ∧
  findTierForAttainment (int 100) (sortTiers zeroCeilingBelowMid)
    = Some (exTier "Zero" 0 (Some 0%Z) 10) ∧
  exTier "Mid" 50 (Some 60%Z) 15 ∈ zeroCeilingBelowMid ∧
  tierFloor (exTier "Mid" 50 (Some 60%Z) 15) ≤ int 100 ∧
  tierFloor (exTier "Zero" 0 (Some 0%Z) 10) < tierFloor (exTier "Mid" 50 (Some 60%Z) 15) ∧
  (λ r, (attainmentAtDeal r, tierApplied r, commissionRate r))
    <$> calculateDealByDealCommission [exDeal "d" 100 1] (int 100) zeroCeilingBelowMid
  = [(int 100, "Zero", int 10 / int 100)].
Proof.
  unfold inRange.
  cbn [exTier Attainment_Ceiling__c fmap option_fmap option_map].
  repeat split; by_eval.
Qed.

(** C4: for every quota at or below 0, whatever the bookings, the tiers
    and the deals, the aggregate calculator returns exactly
    (grossCommission 0, tierBreakdown empty, attainmentPercent 0) and
    the deal-attribution calculator returns the empty sequence; run on a
    store they return these results without throwing, even before
    looking at their arrays, and leave the store as it was. *)
Theorem nonpositive_quota (quota bookings : num) (tiers : list PlanTier)
    (deals : list SalesforceOpportunity) :
  quota ≤ 0 →
  calculateTieredCommission bookings quota tiers
    = {| grossCommission := 0; tierBreakdown := []; attainmentPercent := 0 |} ∧
  calculateDealByDealCommission deals quota tiers = [] ∧
  ∀ (σ : Heap.store) (tiersRef dealsRef : positive),
    Heap.calculateTieredCommission bookings quota tiersRef σ
      = Some ({| grossCommission := 0; tierBreakdown := []; attainmentPercent := 0 |}, σ) ∧
    Heap.calculateDealByDealCommission dealsRef quota tiersRef σ = Some ([], σ).
Proof.
  intros Hq%leb_le.
  unfold calculateTieredCommission, calculateDealByDealCommission,
    Heap.calculateTieredCommission, Heap.calculateDealByDealCommission.
  by rewrite Hq.
Qed.

(** C5, as amended: a tier whose ceilingPercent is present and not 0 has
    ceilingAmount (ceilingPercent/100) * quota; ceilingAmount is
    +infinity exactly when ceilingPercent is missing or is 0. *)
Theorem ceiling_amount (quota : num) (tier : PlanTier) :
  0 < quota →
  (∀ c, Attainment_Ceiling__c tier = Some c → c ≠ 0 →
        tierCeilingAmountOf quota tier = Fin ((c / int 100) * quota)) ∧
  (tierCeilingAmountOf quota tier = Inf ↔
   Attainment_Ceiling__c tier = None ∨ Attainment_Ceiling__c tier = Some 0).
Proof.
  intros _. unfold tierCeilingAmountOf, ceilingAmount, tierCeilingOf, truthy. split.
  - intros c -> Hc. by case_decide.
  - destruct (Attainment_Ceiling__c tier) as [c|]; [|by split; [left|]].
    case_decide as Hc.
    + subst c. by split; [right|].
    + split; [done|]. by intros [|[= ->]].
Qed.

(** C5 as stated fails at quota 100 for a tier whose ceilingPercent is
    present and 0: its ceilingAmount is +infinity, not (0/100) * 100,
    and bookings of 50 are all counted in the tier. *)
Lemma ceiling_amount_counterexample :
  0 < int 100 ∧
  Attainment_Ceiling__c zeroCeilingTier = Some (int 0) ∧
  tierCeilingAmountOf (int 100) zeroCeilingTier = Inf ∧
  tierCeilingAmountOf (int 100) zeroCeilingTier ≠ Fin ((int 0 / int 100) * int 100) ∧
  grossCommission (calculateTieredCommission (int 50) (int 100) [zeroCeilingTier]) = int 5.
Proof. repeat split; by_eval. Qed.

(** The single flat tier in exact arithmetic: the gross commission is
    the bookings times the rate fraction, the attainment the bookings
    over the quota times 100, and there is an entry only for bookings
    above 0. *)
Lemma single_flat_tier_exact (B Q R : num) (id name plan : string) (order : option num) :
  0 ≤ B → 0 < Q →
  let flat := {| tier_Id := id; tier_Name := name; Comp_Plan__c := plan;
                 Attainment_Floor__c := Some 0;
                 Attainment_Ceiling__c := None;
                 Commission_Rate__c := Some R;
                 Order__c := order |} in
  let r := calculateTieredCommission B Q [flat] in
  grossCommission r = B * (R / int 100) ∧
  attainmentPercent r = B / Q * int 100 ∧
  (0 < B → length (tierBreakdown r) = 1%nat) ∧
  (B = 0 → tierBreakdown r = []).
Proof.
  intros HB HQ flat r. subst r.
  unfold calculateTieredCommission.
  assert (leb Q 0 = false) as -> by by apply leb_gt.
  unfold sortTiers. simpl. unfold tieredStep, ceilingAmount, tierCeilingOf.
  simpl. rewrite !orZero_Some.
  replace (B - 0 / int 100 * Q) with B by (field; apply int_100_neq_0).
  rewrite (Math_max_nonneg _ HB).
  destruct (ltb 0 B) eqn:E; simpl.
  - apply ltb_lt in E. repeat split.
    + field. apply int_100_neq_0.
    + intros ->. by destruct (Qclt_not_eq _ _ E).
  - apply ltb_ge in E. assert (B = 0) as -> by by apply Qcle_antisym.
    repeat split.
    + field. apply int_100_neq_0.
    + intros H. by destruct (Qclt_not_eq _ _ H).
Qed.

(** *** The single flat tier on binary64 numbers *)

Lemma b64_int_0 : Binary64.int 0 = SpecFloat.S754_zero false.
Proof. reflexivity. Qed.

Lemma b64_int_100 : Binary64.int 100 = SpecFloat.S754_finite false 7036874417766400 (-46).
Proof. vm_compute. reflexivity. Qed.

Lemma b64_strictEquals_refl (x : Binary64.number) :
  Binary64.isNaN x = false → Binary64.strictEquals x x = true.
Proof.
  destruct x as [s|s| |s m e]; [done|by destruct s|done|].
  intros _. unfold Binary64.strictEquals, SpecFloat.SFeqb. simpl.
  rewrite Z.compare_refl, Pos.compare_cont_refl. by destruct s.
Qed.

Lemma b64_add_zero_l (x : Binary64.number) :
  Binary64.isNaN x = false →
  Binary64.strictEquals (Binary64.add (Binary64.int 0) x) x = true.
Proof.
  intros Hx. destruct x as [s|s| |s m e]; [by destruct s|by destruct s|done|].
  by apply b64_strictEquals_refl.
Qed.

Lemma b64_flat_step (B Q R : Binary64.number) (id name plan : string)
    (order : option Binary64.number) (st : Binary64.TieredState) :
  Binary64.ltb (Binary64.int 0) Q = true → Q ≠ Binary64.Infinity →
  let flat := Binary64.flatTier id name plan R order in
  let rate := Binary64.div (Binary64.orZero (Some R)) (Binary64.int 100) in
  Binary64.tieredStep B Q st flat =
    if Binary64.ltb (Binary64.int 0) B then
      {| Binary64.totalCommission :=
           Binary64.add (Binary64.totalCommission st) (Binary64.mul B rate);
         Binary64.breakdown := Binary64.breakdown st ++
           [ {| Binary64.tierName :=
                  Binary64.tierLabel flat (Binary64.int 0) Binary64.Infinity;
                Binary64.bookingsInTier := B;
                Binary64.rateApplied := rate;
                Binary64.commissionAmount := Binary64.mul B rate |} ] |}
    else st.
Proof.
  intros HQ HQfin flat rate. subst flat rate.
  destruct Q as [s|s| |s m e]; try done; destruct s; try done.
  unfold Binary64.tieredStep, Binary64.tierCeilingOf.
  cbn [Binary64.flatTier Binary64.Attainment_Floor__c Binary64.Attainment_Ceiling__c
       Binary64.Commission_Rate__c Binary64.truthy].
  rewrite b64_int_100.
  destruct B as [s|s| |s mb eb]; try destruct s; try reflexivity.
Qed.

(** C6, as amended: on binary64 numbers, for bookings B at or above 0,
    a finite quota Q above 0 and the single tier (floor 0, no ceiling,
    rate R), the aggregate calculator returns as grossCommission the
    rounded product B * (R / 100) of the bookings with the rounded rate
    fraction (equal under [===], whenever that product is a number) and
    as attainmentPercent the rounded (B / Q) * 100; the breakdown has
    exactly one entry when B is above 0, and is empty when B is 0. *)
Theorem single_flat_tier (B Q R : Binary64.number) (id name plan : string)
    (order : option Binary64.number) :
  Binary64.leb (Binary64.int 0) B = true →
  Binary64.ltb (Binary64.int 0) Q = true → Q ≠ Binary64.Infinity →
  let flat := {| Binary64.tier_Id := id; Binary64.tier_Name := name;
                 Binary64.Comp_Plan__c := plan;
                 Binary64.Attainment_Floor__c := Some (Binary64.int 0);
                 Binary64.Attainment_Ceiling__c := None;
                 Binary64.Commission_Rate__c := Some R;
                 Binary64.Order__c := order |} in
  let r := Binary64.calculateTieredCommission B Q [flat] in
  (Binary64.isNaN (Binary64.mul B (Binary64.div R (Binary64.int 100))) = false →
   Binary64.strictEquals (Binary64.grossCommission r)
     (Binary64.mul B (Binary64.div R (Binary64.int 100))) = true) ∧
  Binary64.attainmentPercent r = Binary64.mul (Binary64.div B Q) (Binary64.int 100) ∧
  (Binary64.ltb (Binary64.int 0) B = true → length (Binary64.tierBreakdown r) = 1%nat) ∧
  (Binary64.strictEquals B (Binary64.int 0) = true → Binary64.tierBreakdown r = []).
Proof.
  intros HB HQ HQfin flat r.
  assert (Binary64.leb Q (Binary64.int 0) = false) as Hguard.
  { destruct Q as [s|s| |s m e]; try done; by destruct s. }
  assert (r = let st := Binary64.tieredStep B Q
                          {| Binary64.totalCommission := Binary64.int 0;
                             Binary64.breakdown := [] |} flat in
              {| Binary64.grossCommission := Binary64.totalCommission st;
                 Binary64.tierBreakdown := Binary64.breakdown st;
                 Binary64.attainmentPercent :=
                   Binary64.mul (Binary64.div B Q) (Binary64.int 100) |}) as ->.
  { subst r. unfold Binary64.calculateTieredCommission. by rewrite Hguard. }
  fold (Binary64.flatTier id name plan R order) in flat. subst flat.
  rewrite b64_flat_step by done. cbn zeta.
  destruct (Binary64.ltb (Binary64.int 0) B) eqn:Hpos;
    cbn [Binary64.totalCommission Binary64.breakdown Binary64.grossCommission
         Binary64.tierBreakdown Binary64.attainmentPercent app length
         Binary64.orZero Binary64.truthy default].
  - split; [|split; [done|split; [done|]]].
    + intros Hnan.
      destruct R as [s|s| |s m e].
      * rewrite b64_int_100 in *.
        destruct B as [sb|sb| |sb mb eb]; try done; destruct sb; try done; by destruct s.
      * by apply b64_add_zero_l.
      * by destruct B as [sb|sb| |sb mb eb].
      * by apply b64_add_zero_l.
    + intros Hz. destruct B as [sb|sb| |sb mb eb]; try done; by destruct sb.
  - split; [|done].
    intros Hnan. destruct B as [sb|sb| |sb mb eb]; try done; try by destruct sb.
    destruct (Binary64.div R (Binary64.int 100)) as [s|s| |s m e]; try done.
Qed.

(** C6 as stated fails for bookings 0 (quota 1, rate 10): the breakdown
    is empty, it does not contain exactly one entry, in exact
    arithmetic and on binary64 numbers alike.  On binary64 numbers it
    also fails for bookings 3 at rate 10 (quota 10): the gross
    commission is 3 * (10 / 100), which is 5404319552844596 * 2^-54
    (0.30000000000000004), where 3 * 10 / 100 is 5404319552844595 * 2^-54
    (0.3). *)
Lemma single_flat_tier_counterexample :
  0 ≤ int 0 ∧ 0 < int 1 ∧
  tierBreakdown (calculateTieredCommission (int 0) (int 1) [exTier "Flat" 0 None 10]) = [] ∧
  length (tierBreakdown
            (calculateTieredCommission (int 0) (int 1) [exTier "Flat" 0 None 10])) ≠ 1%nat ∧
  Binary64.tierBreakdown
    (Binary64.calculateTieredCommission (Binary64.int 0) (Binary64.int 1)
       [Binary64.exTier "Flat" 0 None 10]) = [] ∧
  Binary64.grossCommission
    (Binary64.calculateTieredCommission (Binary64.int 3) (Binary64.int 10)
       [Binary64.exTier "Flat" 0 None 10])
  = SpecFloat.S754_finite false 5404319552844596 (-54) ∧
  Binary64.div (Binary64.mul (Binary64.int 3) (Binary64.int 10)) (Binary64.int 100)
  = SpecFloat.S754_finite false 5404319552844595 (-54) ∧
  Binary64.strictEquals
    (Binary64.grossCommission
       (Binary64.calculateTieredCommission (Binary64.int 3) (Binary64.int 10)
          [Binary64.exTier "Flat" 0 None 10]))
    (Binary64.div (Binary64.mul (Binary64.int 3) (Binary64.int 10)) (Binary64.int 100))
  = false.
Proof.
  split; [by_eval|]. split; [by_eval|]. split; [by_eval|]. split; [by_eval|].
  repeat split; vm_compute; reflexivity.
Qed.

(** C7: for quota above 0, the deal-attribution output holds one record
    per deal, in the order of the deals sorted ascending by close date;
    that order is a rearrangement of the input in which the deals of any
    one close date keep their input order. *)
Theorem attribution_sorted_stable (deals : list SalesforceOpportunity) (quota : num)
    (tiers : list PlanTier) :
  0 < quota →
  Forall2 recordFor (sortDeals deals) (calculateDealByDealCommission deals quota tiers) ∧
  sortDeals deals ≡ₚ deals ∧
  StronglySorted (λ a b, (CloseDate a ≤ CloseDate b)%Z) (sortDeals deals) ∧
  ∀ t, filter (λ d, CloseDate d = t) (sortDeals deals)
       = filter (λ d, CloseDate d = t) deals.
Proof.
  intros Hq%leb_gt.
  split; [|auto using sortDeals_perm, sortDeals_sorted, sortDeals_stable].
  unfold calculateDealByDealCommission. rewrite Hq. simpl.
  case_bool_decide as Hlen.
  - apply nil_length_inv in Hlen as ->. constructor.
  - destruct (dealLoop_records quota (sortTiers tiers) (sortDeals deals)
                {| st_runningBookings := 0; dealCommissions := [] |})
      as (rs & -> & Hrs).
    done.
Qed.

(** C8: run on any store in which the caller's tier array (and, for
    deal attribution, deal array) exists, each calculator returns the
    result of the value-level calculator on the elements of those
    arrays, and every array of the store, the caller's included, has the
    same elements in the same order afterwards. *)
Theorem callers_arrays_unchanged (σ : Heap.store) (tiersRef dealsRef : positive)
    (ts : list PlanTier) (ds : list SalesforceOpportunity) (bookings quota : num) :
  Heap.tierArrays σ !! tiersRef = Some ts →
  Heap.dealArrays σ !! dealsRef = Some ds →
  (∃ σ', Heap.calculateTieredCommission bookings quota tiersRef σ
           = Some (calculateTieredCommission bookings quota ts, σ') ∧
         Heap.unchanged σ σ' ∧
         Heap.tierArrays σ' !! tiersRef = Some ts ∧
         Heap.dealArrays σ' !! dealsRef = Some ds) ∧
  (∃ σ', Heap.calculateDealByDealCommission dealsRef quota tiersRef σ
           = Some (calculateDealByDealCommission ds quota ts, σ') ∧
         Heap.unchanged σ σ' ∧
         Heap.tierArrays σ' !! tiersRef = Some ts ∧
         Heap.dealArrays σ' !! dealsRef = Some ds).
Proof.
  intros Hts Hds. split.
  - destruct (heap_calculateTieredCommission_spec bookings quota _ _ _ Hts)
      as (σ' & Hrun & Hun).
    exists σ'. destruct Hun as [Ht Hd]. repeat split; auto.
  - destruct (heap_calculateDealByDealCommission_spec _ quota _ _ _ _ Hds Hts)
      as (σ' & Hrun & Hun).
    exists σ'. destruct Hun as [Ht Hd]. repeat split; auto.
Qed.

(** C9: when no deal has a negative amount, runningBookings never
    decreases along the emitted records (for every quota, in particular
    every quota above 0). *)
Theorem running_bookings_monotone (deals : list SalesforceOpportunity) (quota : num)
    (tiers : list PlanTier) :
  0 < quota →
  Forall (λ d, 0 ≤ orZero (Amount d)) deals →
  StronglySorted Qcle
    (runningBookings <$> calculateDealByDealCommission deals quota tiers).
Proof.
  intros _ Hdeals.
  destruct (calculateDealByDealCommission_unfold deals quota tiers) as [->| ->];
    [constructor|].
  apply (fold_left_invariant _ runningSorted).
  - intros st d Hd. apply dealStep_runningSorted.
    rewrite sortDeals_perm in Hd. rewrite Forall_forall in Hdeals.
    by apply Hdeals.
  - split; constructor.
Qed.

(** C10: a tier whose ceiling is present and 0 has ceiling +infinity
    for the tier-matching rule, and the rule treats it as it treats the
    same tier without ceiling: turning ceilings of 0 into missing
    ceilings does not change which tier the scan selects.  When the scan
    reaches such a tier (no earlier tier contains the attainment) and
    the attainment is at or above its floor, it matches exactly and the
    scan stops there, whatever tiers follow. *)
Theorem zero_ceiling_is_uncapped (a : num) (pre : list PlanTier) (t : PlanTier)
    (post : list PlanTier) :
  Attainment_Ceiling__c t = Some 0 →
  tierCeilingPct t = Inf ∧
  findTierForAttainment a (withoutZeroCeiling <$> (pre ++ t :: post))
    = withoutZeroCeiling <$> findTierForAttainment a (pre ++ t :: post) ∧
  (tierFloor t ≤ a →
   exactMatch a t = true ∧
   (Forall (λ u, exactMatch a u = false) pre →
    findTierForAttainment a (pre ++ t :: post) = Some t)).
Proof.
  intros Hc.
  assert (tierCeilingPct t = Inf) as Hinf.
  { unfold tierCeilingPct, orInfinity, truthy. rewrite Hc. by case_decide. }
  split; [done|].
  split; [apply (findTierFrom_withoutZeroCeiling a None)|].
  intros Hfloor.
  assert (exactMatch a t = true) as Hex.
  { unfold exactMatch. rewrite Hinf. simpl. rewrite andb_true_r. by apply leb_le. }
  split; [done|]. intros Hpre. by apply findTierFrom_exact.
Qed.

(** ** The properties at concrete inputs *)

(** The worked example with the tiers supplied top tier first. *)
Lemma worked_example_witness :
  grossCommission
    (calculateTieredCommission (int 150000) (int 100000)
       [ exTier "Super" 125 None 20;
         exTier "Base" 0 (Some 100%Z) 10;
         exTier "Accelerator" 100 (Some 125%Z) 15 ])
  = int 18750.
Proof.
  apply (worked_example "Base" "Accelerator" "Super").
  exact (Permutation_cons_append
           [exTier "Base" 0 (Some 100%Z) 10; exTier "Accelerator" 100 (Some 125%Z) 15]
           (exTier "Super" 125 None 20)).
Defined.

(** Attainment 100 on the tiers 0-100 and 100-125, supplied upper tier first. *)
Lemma boundary_selects_upper_tier_witness :
  findTierForAttainment (int 100)
    (sortTiers [exTier "Accelerator" 100 (Some 125%Z) 15; exTier "Base" 0 (Some 100%Z) 10])
  = Some (exTier "Accelerator" 100 (Some 125%Z) 15).
Proof.
  apply (boundary_selects_upper_tier
           (exTier "Base" 0 (Some 100%Z) 10)
           (exTier "Accelerator" 100 (Some 125%Z) 15)).
  - reflexivity.
  - reflexivity.
  - right. split; [reflexivity|by_eval].
Defined.

(** Attainment 150 on a schedule capped at 125, and attainment 10 under a floor of 100. *)
Lemma fallback_tier_witness :
  (∃ t, findTierForAttainment (int 150) (sortTiers cappedTiers) = Some t ∧
        t ∈ cappedTiers ∧ tierFloor t ≤ int 150 ∧
        ∀ u, u ∈ cappedTiers → tierFloor u ≤ int 150 → tierFloor u ≤ tierFloor t) ∧
  findTierForAttainment (int 10) (sortTiers [exTier "Accelerator" 100 (Some 125%Z) 15]) = None.
Proof.
  split.
  - apply (proj1 (fallback_tier (int 150) cappedTiers)).
    + by_eval.
    + exists (exTier "Base" 0 (Some 100%Z) 10). by_eval.
  - apply (proj2 (fallback_tier (int 10) [exTier "Accelerator" 100 (Some 125%Z) 15])).
    by_eval.
Defined.

(** Quota -1 with the example tiers and deals. *)
Lemma nonpositive_quota_witness :
  calculateTieredCommission (int 150000) (int (-1)) exTiers
    = {| grossCommission := 0; tierBreakdown := []; attainmentPercent := 0 |} ∧
  calculateDealByDealCommission exDeals (int (-1)) exTiers = [].
Proof.
  destruct (nonpositive_quota (int (-1)) (int 150000) exTiers exDeals) as (H1 & H2 & _).
  - by_eval.
  - by split.
Defined.

(** A ceiling of 125 on a quota of 100000. *)
Lemma ceiling_amount_witness :
  tierCeilingAmountOf (int 100000) (exTier "Accelerator" 100 (Some 125%Z) 15)
  = Fin ((int 125 / int 100) * int 100000).
Proof.
  apply (proj1 (ceiling_amount (int 100000) (exTier "Accelerator" 100 (Some 125%Z) 15)
                  ltac:(by_eval))).
  - reflexivity.
  - by_eval.
Defined.

(** Bookings 3 at a flat rate of 10 on a quota of 10. *)
Lemma single_flat_tier_witness :
  Binary64.strictEquals
    (Binary64.grossCommission
       (Binary64.calculateTieredCommission (Binary64.int 3) (Binary64.int 10)
          [Binary64.mkPlanTier "t" "Flat" "plan" (Some (Binary64.int 0)) None
             (Some (Binary64.int 10)) None]))
    (Binary64.mul (Binary64.int 3) (Binary64.div (Binary64.int 10) (Binary64.int 100)))
  = true.
Proof.
  apply (single_flat_tier (Binary64.int 3) (Binary64.int 10) (Binary64.int 10)
           "t" "Flat" "plan" None);
    vm_compute; first [reflexivity | discriminate].
Defined.

(** The example deals on a quota of 100000. *)
Lemma attribution_sorted_stable_witness :
  Forall2 recordFor (sortDeals exDeals)
    (calculateDealByDealCommission exDeals (int 100000) exTiers).
Proof.
  apply (attribution_sorted_stable exDeals (int 100000) exTiers). by_eval.
Defined.

(** Deal attribution on the example store. *)
Lemma callers_arrays_unchanged_witness :
  ∃ σ', Heap.calculateDealByDealCommission 1 (int 100000) 1 exStore
          = Some (calculateDealByDealCommission exDeals (int 100000) cappedTiers, σ') ∧
        Heap.unchanged exStore σ' ∧
        Heap.tierArrays σ' !! 1%positive = Some cappedTiers ∧
        Heap.dealArrays σ' !! 1%positive = Some exDeals.
Proof.
  apply (callers_arrays_unchanged exStore 1 1 cappedTiers exDeals (int 0) (int 100000));
    reflexivity.
Defined.

(** The running totals of the example deals. *)
Lemma running_bookings_monotone_witness :
  StronglySorted Qcle
    (runningBookings <$> calculateDealByDealCommission exDeals (int 100000) exTiers).
Proof.
  apply (running_bookings_monotone exDeals (int 100000) exTiers); by_eval.
Defined.

(** Attainment 50 on a tier 0-0 followed by a tier 10-125. *)
Lemma zero_ceiling_is_uncapped_witness :
  findTierForAttainment (int 50)
    ([] ++ zeroCeilingTier :: [exTier "Accelerator" 10 (Some 125%Z) 15])
  = Some zeroCeilingTier.
Proof.
  destruct (zero_ceiling_is_uncapped (int 50) [] zeroCeilingTier
              [exTier "Accelerator" 10 (Some 125%Z) 15]) as (_ & _ & H).
  - by_eval.
  - apply H; [by_eval|constructor].
Defined.

(** ** Evaluations *)

(** Deal attribution on [exDeals]: the records follow the close dates,
    the two deals of date 2 stay in input order, and the rate steps up
    with the running attainment. *)
Example attribution_example :
  (λ r, (opportunityId r, tierApplied r, runningBookings r, dc_commissionAmount r))
    <$> calculateDealByDealCommission exDeals (int 100000) exTiers
  = [ ("d1", "Base", int 60000, int 6000);
      ("d2a", "Base", int 90000, int 3000);
      ("d2b", "Accelerator", int 110000, int 3000);
      ("d3", "Super", int 150000, int 8000) ].
Proof. by_eval. Qed.

(** On a schedule without an uncapped tier, an attainment above every
    ceiling falls back to the top tier; below every floor it is "Base". *)
Example fallback_example :
  findTierForAttainment (int 150) (sortTiers cappedTiers)
    = Some (exTier "Accelerator" 100 (Some 125%Z) 15) ∧
  (λ r, (tierApplied r, commissionRate r))
    <$> calculateDealByDealCommission [exDeal "d" 10 1] (int 100)
          [exTier "Accelerator" 100 (Some 125%Z) 15]
  = [ ("Base", 0) ].
Proof. split; by_eval. Qed.

(** The store does tell a copy from the array itself: sorting the
    caller's array in place, without the copy, reorders it. *)
Example sort_in_place_is_visible :
  (λ '(_, σ'), Heap.tierArrays σ' !! 1%positive) <$> Heap.sortTiersAt 1 exStore
  = Some (Some [ exTier "Base" 0 (Some 100%Z) 10;
                 exTier "Accelerator" 100 (Some 125%Z) 15 ]) ∧
  Heap.tierArrays exStore !! 1%positive
  = Some [ exTier "Accelerator" 100 (Some 125%Z) 15;
           exTier "Base" 0 (Some 100%Z) 10 ].
Proof. split; by_eval. Qed.

(** The worked example on binary64 numbers: the same amounts, none of
    them touched by rounding. *)
Example worked_example_binary64 :
  Binary64.attainmentPercent
    (Binary64.calculateTieredCommission (Binary64.int 150000) (Binary64.int 100000)
       Binary64.exTiers)
  = Binary64.int 150 ∧
  (λ e, (Binary64.bookingsInTier e, Binary64.commissionAmount e))
    <$> Binary64.tierBreakdown
          (Binary64.calculateTieredCommission (Binary64.int 150000)
             (Binary64.int 100000) Binary64.exTiers)
  = [ (Binary64.int 100000, Binary64.int 10000);
      (Binary64.int 25000, Binary64.int 3750);
      (Binary64.int 25000, Binary64.int 5000) ] ∧
  Binary64.grossCommission
    (Binary64.calculateTieredCommission (Binary64.int 150000) (Binary64.int 100000)
       Binary64.exTiers)
  = Binary64.int 18750.
Proof. repeat split; vm_compute; reflexivity. Qed.

(** Floor amounts are rounded: on a quota of 100000 the floor amount of
    a tier from 115 is (115 / 100) * 100000 = 7902739824639999 * 2^-36,
    the double just below 115000, so bookings of 115000 leave that much
    in the tier below and reach the tier from 115 by 2^-36. *)
Example floor_amount_is_rounded :
  Binary64.bookingsInTier
    <$> Binary64.tierBreakdown
          (Binary64.calculateTieredCommission (Binary64.int 115000)
             (Binary64.int 100000)
             [Binary64.exTier "Base" 0 (Some 115%Z) 10; Binary64.exTier "Top" 115 None 20])
  = [ SpecFloat.S754_finite false 7902739824639999 (-36);
      SpecFloat.S754_finite false 4503599627370496 (-88) ].
Proof. vm_compute. reflexivity. Qed.

(** ** Further properties of the calculators *)

(** *** Linear arithmetic on [Qc], through [Q] *)

Lemma Qc_eq_Qeq (x y : num) : x = y ↔ (x == y)%Q.
Proof. split; [by intros ->|apply Qc_is_canon]. Qed.

Ltac qc_to_q :=
  repeat match goal with
  | H : @eq Qc _ _ |- _ => apply Qc_eq_Qeq in H
  | H : ¬ @eq Qc _ _ |- _ => rewrite Qc_eq_Qeq in H
  | |- @eq Qc _ _ => apply Qc_eq_Qeq
  | |- ¬ @eq Qc _ _ => rewrite Qc_eq_Qeq
  end;
  unfold Qcle, Qclt, Qcminus, Qcdiv, Qcplus, Qcmult, Qcopp, Qcinv, Q2Qc,
    int, Qc_of_Z in *;
  cbn [this] in *;
  rewrite ?Qred_correct in *;
  unfold inject_Z in *;
  cbn [Qinv Qnum Qden] in *.

Ltac qc_lra := qc_to_q; lra.

(** Case analysis on every comparison of the goal and of the
    hypotheses. *)
Ltac cases_cmp :=
  repeat match goal with
  | |- context [leb ?x ?y] =>
      let E := fresh "E" in
      destruct (leb x y) eqn:E; [apply leb_le in E|apply leb_gt in E]
  | |- context [ltb ?x ?y] =>
      let E := fresh "E" in
      destruct (ltb x y) eqn:E; [apply ltb_lt in E|apply ltb_ge in E]
  | H : context [leb ?x ?y] |- _ =>
      let E := fresh "E" in
      destruct (leb x y) eqn:E; [apply leb_le in E|apply leb_gt in E]
  | H : context [ltb ?x ?y] |- _ =>
      let E := fresh "E" in
      destruct (ltb x y) eqn:E; [apply ltb_lt in E|apply ltb_ge in E]
  end.

(** Goals about [Math_max] and [Math_min] of linear terms. *)
Ltac minmax_lra := unfold Math_max, Math_min in *; cases_cmp; qc_lra.

(** *** Sums *)

Lemma Qc_add_nonneg (x y : num) : 0 ≤ x → 0 ≤ y → 0 ≤ x + y.
Proof. intros Hx Hy. qc_lra. Qed.

Lemma Qsum_cons (x : num) (l : list num) : Qsum (x :: l) = x + Qsum l.
Proof. reflexivity. Qed.

Lemma Qsum_app (l1 l2 : list num) : Qsum (l1 ++ l2) = Qsum l1 + Qsum l2.
Proof.
  induction l1 as [|x l1 IH]; simpl; [by rewrite Qcplus_0_l|].
  rewrite IH. ring.
Qed.


Lemma Qsum_nonneg (l : list num) : Forall (λ x, 0 ≤ x) l → 0 ≤ Qsum l.
Proof.
  induction 1 as [|x l Hx _ IH]; simpl; [apply Qcle_refl|]. qc_lra.
Qed.

Lemma Qsum_le (l1 l2 : list num) : Forall2 Qcle l1 l2 → Qsum l1 ≤ Qsum l2.
Proof.
  induction 1 as [|x y l1 l2 Hxy _ IH]; simpl; [apply Qcle_refl|]. qc_lra.
Qed.

(** *** The aggregate loop, tier by tier *)

Lemma tieredStep_spec (bookings quota : num) (st : TieredState) (tier : PlanTier) :
  tieredStep bookings quota st tier =
  {| totalCommission := totalCommission st + tierCommissionOf bookings quota tier;
     breakdown := breakdown st ++ breakdownOf bookings quota [tier] |}.
Proof.
  unfold tieredStep, breakdownOf, tierCommissionOf, bookingsInTierOf,
    tierCeilingAmountOf, tierFloorAmountOf. simpl.
  match goal with |- context [ltb 0 ?x] => destruct (ltb 0 x) eqn:E end; simpl.
  - done.
  - rewrite Qcplus_0_r, app_nil_r. by destruct st.
Qed.

Lemma breakdownOf_cons (bookings quota : num) (t : PlanTier) (l : list PlanTier) :
  breakdownOf bookings quota (t :: l)
  = breakdownOf bookings quota [t] ++ breakdownOf bookings quota l.
Proof. unfold breakdownOf. simpl. by rewrite app_nil_r. Qed.

Lemma tiered_fold (bookings quota : num) (l : list PlanTier) (st : TieredState) :
  fold_left (tieredStep bookings quota) l st =
  {| totalCommission :=
       totalCommission st + Qsum (tierCommissionOf bookings quota <$> l);
     breakdown := breakdown st ++ breakdownOf bookings quota l |}.
Proof.
  revert st. induction l as [|t l IH]; intros st; cbn [fold_left].
  - unfold breakdownOf. simpl. rewrite Qcplus_0_r, app_nil_r. by destruct st.
  - rewrite IH, tieredStep_spec. cbn [totalCommission breakdown].
    rewrite fmap_cons. cbn [Qsum foldr].
    rewrite (breakdownOf_cons _ _ t l), <-app_assoc. f_equal.
    unfold Qsum. ring.
Qed.

Lemma calculateTieredCommission_unfold (bookings quota : num) (tiers : list PlanTier) :
  0 < quota →
  calculateTieredCommission bookings quota tiers =
  {| grossCommission := Qsum (tierCommissionOf bookings quota <$> sortTiers tiers);
     tierBreakdown := breakdownOf bookings quota (sortTiers tiers);
     attainmentPercent := bookings / quota * int 100 |}.
Proof.
  intros Hq%leb_gt. unfold calculateTieredCommission.
  rewrite Hq, tiered_fold. simpl. by rewrite Qcplus_0_l.
Qed.

Lemma breakdownOf_single (bookings quota : num) (t : PlanTier) :
  Forall (λ e, 0 < bookingsInTier e ∧
               commissionAmount e = bookingsInTier e * rateApplied e)
    (breakdownOf bookings quota [t]) ∧
  Qsum (commissionAmount <$> breakdownOf bookings quota [t])
    = tierCommissionOf bookings quota t ∧
  (length (breakdownOf bookings quota [t]) ≤ 1)%nat.
Proof.
  unfold breakdownOf, tierCommissionOf. simpl.
  destruct (ltb 0 (bookingsInTierOf bookings quota t)) eqn:E; simpl.
  - apply ltb_lt in E. rewrite Qcplus_0_r. repeat split; [by repeat constructor|lia].
  - repeat split; [done|lia].
Qed.

Lemma breakdownOf_entries (bookings quota : num) (l : list PlanTier) :
  Forall (λ e, 0 < bookingsInTier e ∧
               commissionAmount e = bookingsInTier e * rateApplied e)
    (breakdownOf bookings quota l) ∧
  Qsum (commissionAmount <$> breakdownOf bookings quota l)
    = Qsum (tierCommissionOf bookings quota <$> l) ∧
  (length (breakdownOf bookings quota l) ≤ length l)%nat.
Proof.
  induction l as [|t l (IH1 & IH2 & IH3)]; [by repeat split|].
  destruct (breakdownOf_single bookings quota t) as (S1 & S2 & S3).
  rewrite breakdownOf_cons, Forall_app, fmap_app, Qsum_app, length_app, fmap_cons.
  cbn [Qsum foldr length]. rewrite S2, IH2. repeat split; [done..|lia].
Qed.

(** X1: the gross commission is the sum of the commission amounts of
    the breakdown entries; every entry has bookings above 0 and a
    commission amount of bookings times rate; and there are no more
    entries than tiers. *)
Theorem breakdown_accounts_for_gross (bookings quota : num) (tiers : list PlanTier) :
  let r := calculateTieredCommission bookings quota tiers in
  grossCommission r = Qsum (commissionAmount <$> tierBreakdown r) ∧
  Forall (λ e, 0 < bookingsInTier e ∧
               commissionAmount e = bookingsInTier e * rateApplied e)
    (tierBreakdown r) ∧
  (length (tierBreakdown r) ≤ length tiers)%nat.
Proof.
  intros r. subst r.
  destruct (Qclt_le_dec 0 quota) as [Hq|Hq].
  - rewrite (calculateTieredCommission_unfold _ _ _ Hq). simpl.
    destruct (breakdownOf_entries bookings quota (sortTiers tiers)) as (H1 & H2 & H3).
    rewrite (Permutation_length (sortTiers_perm tiers)) in H3. by rewrite H2.
  - apply leb_le in Hq. unfold calculateTieredCommission. rewrite Hq. simpl.
    repeat split; [done|lia].
Qed.

(** *** The breakdown on binary64 numbers, tier by tier *)




(** The sum itself is rounded step by step, so among tiers of equal
    floor the order of supply can show in the last place of the gross
    commission: rates 10, 20 and 30 on bookings 1 (quota 1) add up to
    5404319552844596 * 2^-53 (0.6000000000000001) in this order and to
    5404319552844595 * 2^-53 (0.6) in the reverse order. *)
Example gross_is_summed_in_sorted_order :
  Binary64.grossCommission
    (Binary64.calculateTieredCommission (Binary64.int 1) (Binary64.int 1)
       Binary64.equalFloorTiers)
  = SpecFloat.S754_finite false 5404319552844596 (-53) ∧
  Binary64.grossCommission
    (Binary64.calculateTieredCommission (Binary64.int 1) (Binary64.int 1)
       (reverse Binary64.equalFloorTiers))
  = SpecFloat.S754_finite false 5404319552844595 (-53).
Proof. split; vm_compute; reflexivity. Qed.

(** *** More bookings never pay less *)

Lemma bookingsInTierOf_mono (b b' quota : num) (t : PlanTier) :
  b ≤ b' → bookingsInTierOf b quota t ≤ bookingsInTierOf b' quota t.
Proof.
  intros Hb. unfold bookingsInTierOf, Math_min_x.
  generalize (tierFloorAmountOf quota t). intros f.
  destruct (xsub (tierCeilingAmountOf quota t) f) as [r|];
    minmax_lra.
Qed.

Lemma rate_fraction_nonneg (r : num) : 0 ≤ r → 0 ≤ r / int 100.
Proof. intros Hr. qc_lra. Qed.

Lemma tierCommissionOf_mono (b b' quota : num) (t : PlanTier) :
  0 ≤ orZero (Commission_Rate__c t) → b ≤ b' →
  0 ≤ tierCommissionOf b quota t ∧
  tierCommissionOf b quota t ≤ tierCommissionOf b' quota t.
Proof.
  intros Hr%rate_fraction_nonneg Hb.
  pose proof (bookingsInTierOf_mono b b' quota t Hb) as Hmono.
  unfold tierCommissionOf.
  destruct (ltb 0 (bookingsInTierOf b quota t)) eqn:E;
    [apply ltb_lt in E|apply ltb_ge in E];
    (destruct (ltb 0 (bookingsInTierOf b' quota t)) eqn:E';
      [apply ltb_lt in E'|apply ltb_ge in E']).
  - split; [|by apply Qcmult_le_mono_nonneg_r].
    rewrite <-(Qcmult_0_l (orZero (Commission_Rate__c t) / int 100)).
    apply Qcmult_le_mono_nonneg_r; [done|by apply Qclt_le_weak].
  - destruct (Qclt_not_le _ _ E). by eapply Qcle_trans.
  - split; [apply Qcle_refl|].
    rewrite <-(Qcmult_0_l (orZero (Commission_Rate__c t) / int 100)).
    apply Qcmult_le_mono_nonneg_r; [done|by apply Qclt_le_weak].
  - split; apply Qcle_refl.
Qed.

(** X3: when no tier has a negative rate, the gross commission is not
    negative and does not decrease when the bookings grow. *)
Theorem gross_monotone_in_bookings (b b' quota : num) (tiers : list PlanTier) :
  Forall (λ t, 0 ≤ orZero (Commission_Rate__c t)) tiers →
  b ≤ b' →
  0 ≤ grossCommission (calculateTieredCommission b quota tiers) ∧
  grossCommission (calculateTieredCommission b quota tiers)
    ≤ grossCommission (calculateTieredCommission b' quota tiers).
Proof.
  intros Hrates Hb.
  destruct (Qclt_le_dec 0 quota) as [Hq|Hq].
  - rewrite !(calculateTieredCommission_unfold _ _ _ Hq). simpl.
    rewrite <-(sortTiers_perm tiers) in Hrates.
    induction Hrates as [|t l Ht _ [IH1 IH2]]; [split; apply Qcle_refl|].
    destruct (tierCommissionOf_mono b b' quota t Ht Hb) as [H0 Hle].
    rewrite !fmap_cons. cbn [Qsum foldr].
    split; [by apply Qc_add_nonneg|by apply Qcplus_le_compat].
  - apply leb_le in Hq. unfold calculateTieredCommission. rewrite !Hq. simpl.
    split; apply Qcle_refl.
Qed.

(** *** The tier-matching rule returns a tier of the list *)

Lemma findTierFrom_sound (a : num) (acc : option PlanTier) (l : list PlanTier) :
  (findTierFrom a acc l = acc ∧ Forall (λ u, a < tierFloor u) l) ∨
  (∃ t, findTierFrom a acc l = Some t ∧ t ∈ l ∧ tierFloor t ≤ a).
Proof.
  revert acc. induction l as [|u l IH]; intros acc; [by left|].
  rewrite findTierFrom_cons.
  destruct (exactMatch a u) eqn:Ex.
  { apply exactMatch_floor in Ex. right. exists u. by repeat split; [left|]. }
  destruct (leb (tierFloor u) a) eqn:E.
  - apply leb_le in E. right.
    destruct (IH (Some u)) as [[-> _]|(t & -> & Hin & Hfl)].
    + exists u. by repeat split; [left|].
    + exists t. by repeat split; [right|].
  - apply leb_gt in E.
    destruct (IH acc) as [[-> Hall]|(t & -> & Hin & Hfl)].
    + left. by split; [|constructor].
    + right. exists t. by repeat split; [right|].
Qed.

(** X4: the tier-matching rule returns a tier of the list it scans,
    with its floor at or below the attainment, and returns no tier only
    when every floor is above the attainment; so a deal record never
    carries a tier whose floor is above its running attainment. *)
Theorem matched_tier_is_reached (a : num) (l : list PlanTier) :
  match findTierForAttainment a l with
  | Some t => t ∈ l ∧ tierFloor t ≤ a
  | None => Forall (λ u, a < tierFloor u) l
  end ∧
  ∀ deals quota r,
    r ∈ calculateDealByDealCommission deals quota l →
    (commissionRate r = 0 ∧ tierApplied r = "Base") ∨
    (∃ t, t ∈ l ∧ tierFloor t ≤ attainmentAtDeal r ∧
          commissionRate r = orZero (Commission_Rate__c t) / int 100 ∧
          tierApplied r = orString (tier_Name t) "Base").
Proof.
  assert (∀ a' l', match findTierForAttainment a' l' with
                   | Some t => t ∈ l' ∧ tierFloor t ≤ a'
                   | None => Forall (λ u, a' < tierFloor u) l'
                   end) as Hfind.
  { intros a' l'. unfold findTierForAttainment.
    destruct (findTierFrom_sound a' None l') as [[-> Hall]|(t & -> & Hin & Hfl)]; done. }
  split; [apply Hfind|].
  intros deals quota r Hr.
  pose proof (deal_records deals quota l) as Hrec.
  rewrite Forall_forall in Hrec.
  destruct (Hrec r Hr) as (_ & Hrate & _ & Hname).
  specialize (Hfind (attainmentAtDeal r) (sortTiers l)).
  destruct (findTierForAttainment (attainmentAtDeal r) (sortTiers l)) as [t|].
  - right. exists t. destruct Hfind as [Hin Hfl].
    rewrite sortTiers_perm in Hin. done.
  - left. done.
Qed.

(** *** Contiguous schedules *)

Lemma sortTiers_sorted_id (l : list PlanTier) :
  StronglySorted (λ a b, tierFloor a ≤ tierFloor b) l → sortTiers l = l.
Proof. intros Hs. symmetry. by apply sortTiers_unique. Qed.

Lemma truthy_Some (x : option num) (c : num) :
  truthy x = Some c → x = Some c ∧ c ≠ 0.
Proof.
  unfold truthy. destruct x as [q|]; [|done].
  case_decide; [done|]. by intros [= ->].
Qed.

Lemma contiguousFrom_cons (lo : num) (t u : PlanTier) (rest : list PlanTier) :
  contiguousFrom lo (t :: u :: rest) = true →
  tierFloor t = lo ∧
  ∃ c, Attainment_Ceiling__c t = Some c ∧ c ≠ 0 ∧ lo ≤ c ∧
       contiguousFrom c (u :: rest) = true.
Proof.
  cbn [contiguousFrom]. intros [Hlo H]%andb_true_iff.
  apply bool_decide_eq_true in Hlo. split; [done|].
  destruct (truthy (Attainment_Ceiling__c t)) as [c|] eqn:Hc; [|done].
  apply truthy_Some in Hc as [Hc Hc0].
  apply andb_true_iff in H as [Hle%leb_le H]. by exists c.
Qed.

Lemma contiguousFrom_last (lo : num) (t : PlanTier) :
  contiguousFrom lo [t] = true →
  tierFloor t = lo ∧ Attainment_Ceiling__c t = None.
Proof.
  cbn [contiguousFrom]. intros [Hlo H]%andb_true_iff.
  by apply bool_decide_eq_true in Hlo, H.
Qed.

Lemma contiguousFrom_sorted (lo : num) (l : list PlanTier) :
  contiguousFrom lo l = true →
  StronglySorted (λ a b, tierFloor a ≤ tierFloor b) l ∧
  Forall (λ t, lo ≤ tierFloor t) l.
Proof.
  revert lo. induction l as [|t [|u rest] IH]; intros lo Hc; [done|..].
  - apply contiguousFrom_last in Hc as [<- _].
    split; repeat constructor. apply Qcle_refl.
  - apply contiguousFrom_cons in Hc as (<- & c & _ & _ & Hle & Hrest).
    destruct (IH c Hrest) as [Hs Hall].
    assert (Forall (λ x, tierFloor t ≤ tierFloor x) (u :: rest)) as Hall'.
    { eapply Forall_impl; [exact Hall|]. intros x Hx. by eapply Qcle_trans. }
    split; constructor; [done..|apply Qcle_refl|done].
Qed.

(** X6: on a contiguous schedule, supplied in order, every attainment
    at or above the first floor is matched by a tier that contains it in
    its range [floor, ceiling): the fallback is never needed. *)
Theorem contiguous_schedule_matches_exactly (a lo : num) (tiers : list PlanTier) :
  contiguousFrom lo tiers = true →
  lo ≤ a →
  ∃ t, findTierForAttainment a (sortTiers tiers) = Some t ∧
       t ∈ tiers ∧ inRange a t.
Proof.
  intros Hc Ha.
  rewrite (sortTiers_sorted_id tiers) by by apply (contiguousFrom_sorted lo).
  unfold findTierForAttainment. generalize (@None PlanTier). revert lo Hc Ha.
  induction tiers as [|t [|u rest] IH]; intros lo Hc Ha acc; [done|..].
  - apply contiguousFrom_last in Hc as [Hlo Hceil].
    exists t. rewrite findTierFrom_cons.
    assert (inRange a t) as Hin by (unfold inRange; rewrite Hlo, Hceil; done).
    apply exactMatch_inRange in Hin as ->; [|by rewrite Hceil].
    by repeat split; [left|rewrite Hlo|rewrite Hceil].
  - apply contiguousFrom_cons in Hc as (Hlo & c & Hceil & Hc0 & Hle & Hrest).
    rewrite findTierFrom_cons.
    destruct (Qclt_le_dec a c) as [Hac|Hca].
    + exists t.
      assert (inRange a t) as Hin by (unfold inRange; rewrite Hlo, Hceil; done).
      pose proof Hin as Hin'.
      apply exactMatch_inRange in Hin as ->; [|rewrite Hceil; by intros [= ->]].
      split; [done|]. by split; [left|].
    + assert (exactMatch a t = false) as ->.
      { apply not_true_iff_false. rewrite exactMatch_inRange
          by (rewrite Hceil; by intros [= ->]).
        unfold inRange. rewrite Hceil. intros [_ Hlt]. by apply (Qclt_not_le _ _ Hlt). }
      assert (leb (tierFloor t) a = true) as -> by (apply leb_le; by rewrite Hlo).
      destruct (IH c Hrest Hca (Some t)) as (t' & Hfind & Hin & Hrange).
      exists t'. split; [done|]. by split; [right|].
Qed.

(** *** The order of the input *)

Section KeyedOrder.
Context {A K : Type} `{EqDecision K} (key : A → K).

Lemma filter_key_short (k : K) (l : list A) :
  NoDup (key <$> l) → (length (filter (λ a, key a = k) l) ≤ 1)%nat.
Proof.
  induction l as [|x l IH]; [simpl; lia|].
  rewrite fmap_cons, NoDup_cons. intros [Hx Hl].
  rewrite filter_cons. case_decide as Hk; [|by apply IH].
  destruct (filter (λ a, key a = k) l) as [|y l'] eqn:E; [simpl; lia|].
  destruct Hx. assert (y ∈ filter (λ a, key a = k) l) as Hy by (rewrite E; left).
  apply list_elem_of_filter in Hy as [Hky Hy].
  rewrite Hk, <-Hky. by apply list_elem_of_fmap_2.
Qed.

(** With pairwise distinct keys, the elements of one key are the same
    in every arrangement. *)
Lemma filter_key_perm (k : K) (l l' : list A) :
  l ≡ₚ l' → NoDup (key <$> l) →
  filter (λ a, key a = k) l = filter (λ a, key a = k) l'.
Proof.
  intros Hperm Hnd.
  pose proof (filter_key_short k l Hnd) as Hlen.
  assert (filter (λ a, key a = k) l ≡ₚ filter (λ a, key a = k) l') as Hf
    by by rewrite Hperm.
  destruct (filter (λ a, key a = k) l) as [|x [|y rest]]; simpl in Hlen; [..|lia].
  - by apply Permutation_nil_l in Hf.
  - by apply Permutation_singleton_l in Hf.
Qed.
End KeyedOrder.

Lemma sortTiers_perm_eq (tiers tiers' : list PlanTier) :
  tiers ≡ₚ tiers' → NoDup (tierFloor <$> tiers) → sortTiers tiers = sortTiers tiers'.
Proof.
  intros Hperm Hnd. apply sortTiers_unique; [apply sortTiers_sorted|].
  intros f. rewrite sortTiers_stable. by apply filter_key_perm.
Qed.

Lemma sortDeals_perm_eq (deals deals' : list SalesforceOpportunity) :
  deals ≡ₚ deals' → NoDup (CloseDate <$> deals) → sortDeals deals = sortDeals deals'.
Proof.
  intros Hperm Hnd. apply sortDeals_unique; [apply sortDeals_sorted|].
  intros t. rewrite sortDeals_stable. by apply filter_key_perm.
Qed.

(** X7: when no two tiers have the same floor, both calculators return
    the same result for every order in which the tiers are supplied. *)
Theorem tier_order_is_irrelevant (tiers tiers' : list PlanTier)
    (bookings quota : num) (deals : list SalesforceOpportunity) :
  tiers ≡ₚ tiers' →
  NoDup (tierFloor <$> tiers) →
  calculateTieredCommission bookings quota tiers
    = calculateTieredCommission bookings quota tiers' ∧
  calculateDealByDealCommission deals quota tiers
    = calculateDealByDealCommission deals quota tiers'.
Proof.
  intros Hperm Hnd.
  unfold calculateTieredCommission, calculateDealByDealCommission.
  by rewrite (sortTiers_perm_eq _ _ Hperm Hnd).
Qed.

(** X8: when no two deals close at the same time, deal attribution
    returns the same records for every order in which the deals are
    supplied. *)
Theorem deal_order_is_irrelevant (deals deals' : list SalesforceOpportunity)
    (quota : num) (tiers : list PlanTier) :
  deals ≡ₚ deals' →
  NoDup (CloseDate <$> deals) →
  calculateDealByDealCommission deals quota tiers
    = calculateDealByDealCommission deals' quota tiers.
Proof.
  intros Hperm Hnd.
  unfold calculateDealByDealCommission.
  by rewrite (sortDeals_perm_eq _ _ Hperm Hnd), (Permutation_length Hperm).
Qed.

(** *** The running total of the deal loop *)




Lemma calculateDealByDealCommission_pos (deals : list SalesforceOpportunity)
    (quota : num) (tiers : list PlanTier) :
  0 < quota →
  calculateDealByDealCommission deals quota tiers =
    dealCommissions
      (fold_left (dealStep quota (sortTiers tiers)) (sortDeals deals)
         {| st_runningBookings := 0; dealCommissions := [] |}).
Proof.
  intros Hq%leb_gt. unfold calculateDealByDealCommission. rewrite Hq. simpl.
  case_bool_decide as Hlen; [|done]. by apply nil_length_inv in Hlen as ->.
Qed.




(** *** A single flat tier: three calculators, one commission *)

Lemma attainment_nonneg (x quota : num) :
  0 ≤ x → 0 < quota → 0 ≤ x / quota * int 100.
Proof.
  intros Hx Hq. apply Qcmult_nonneg_nonneg; [|by apply (bool_decide_unpack _)].
  apply Qcmult_nonneg_nonneg; [done|]. by apply Qclt_le_weak, Qcinv_pos.
Qed.

Lemma flat_tierCommission (B Q R : num) (id name plan : string) (order : option num) :
  0 ≤ B →
  tierCommissionOf B Q (flatTier id name plan R order) = B * (R / int 100).
Proof.
  intros HB. unfold tierCommissionOf, bookingsInTierOf, tierFloorAmountOf,
    tierCeilingAmountOf, tierCeilingOf. simpl. rewrite !orZero_Some.
  replace (B - 0 / int 100 * Q) with B by (field; apply int_100_neq_0).
  rewrite (Math_max_nonneg _ HB).
  destruct (ltb 0 B) eqn:E; [done|].
  apply ltb_ge in E. assert (B = 0) as -> by by apply Qcle_antisym. ring.
Qed.

Lemma flat_findTier (a R : num) (id name plan : string) (order : option num) :
  0 ≤ a →
  findTierForAttainment a (sortTiers [flatTier id name plan R order])
  = Some (flatTier id name plan R order).
Proof.
  intros Ha. apply (findTierFrom_exact a None []); [constructor|].
  unfold exactMatch, tierFloor, tierCeilingPct. simpl. rewrite orZero_Some.
  rewrite andb_true_r. by apply leb_le.
Qed.

Lemma flat_dealLoop (Q R : num) (id name plan : string) (order : option num)
    (ds : list SalesforceOpportunity) (st : DealState) :
  let paidFlat r :=
    commissionRate r = R / int 100 ∧
    dc_commissionAmount r = calculateSimpleCommission (dealAmount r) R ∧
    tierApplied r = orString name "Base" in
  0 < Q → 0 ≤ st_runningBookings st →
  Forall (λ d, 0 ≤ dealAmountOf d) ds →
  Forall paidFlat (dealCommissions st) →
  Forall paidFlat
    (dealCommissions
       (fold_left (dealStep Q (sortTiers [flatTier id name plan R order])) ds st)).
Proof.
  intros paidFlat HQ Hst Hds. revert st Hst.
  induction Hds as [|d ds Hd _ IH]; intros st Hst Hrecs; cbn [fold_left]; [done|].
  assert (0 ≤ st_runningBookings st + orZero (Amount d)) as Hrun
    by by apply Qc_add_nonneg.
  apply IH; unfold dealStep; cbn [st_runningBookings dealCommissions]; [done|].
  rewrite (flat_findTier _ R id name plan order (attainment_nonneg _ _ Hrun HQ)).
  apply Forall_app. split; [done|]. apply Forall_singleton.
  unfold paidFlat, calculateSimpleCommission. simpl. by rewrite orZero_Some.
Qed.

(** X11: with the single uncapped tier at floor 0 and rate R, a quota
    above 0 and no negative deal amount, every deal record carries the
    rate R / 100, the name of the tier (or Base when it has none) and,
    as commission amount, what calculateSimpleCommission returns for the
    deal amount at rate R; and on bookings above 0 the gross commission
    of the aggregate calculator is what calculateSimpleCommission
    returns for the bookings at rate R. *)
Theorem flat_tier_pays_simple_commission (Q R : num) (id name plan : string)
    (order : option num) (deals : list SalesforceOpportunity) :
  0 < Q →
  Forall (λ d, 0 ≤ dealAmountOf d) deals →
  let flat := flatTier id name plan R order in
  Forall (λ r, commissionRate r = R / int 100 ∧
               dc_commissionAmount r = calculateSimpleCommission (dealAmount r) R ∧
               tierApplied r = orString name "Base")
    (calculateDealByDealCommission deals Q [flat]) ∧
  ∀ B, 0 < B →
    grossCommission (calculateTieredCommission B Q [flat])
    = calculateSimpleCommission B R.
Proof.
  intros HQ Hdeals flat. subst flat. split.
  - rewrite (calculateDealByDealCommission_pos _ _ _ HQ).
    apply (flat_dealLoop Q R id name plan order); [done|apply Qcle_refl| |done].
    by rewrite sortDeals_perm.
  - intros B HB.
    rewrite (calculateTieredCommission_unfold _ _ _ HQ). cbn [grossCommission].
    change (sortTiers [flatTier id name plan R order])
      with [flatTier id name plan R order].
    rewrite fmap_cons, Qsum_cons, flat_tierCommission by by apply Qclt_le_weak.
    unfold calculateSimpleCommission. simpl. ring.
Qed.

(** *** Nothing to pay on bookings that are not positive *)

Lemma bookingsInTierOf_nonpos (bookings quota : num) (t : PlanTier) :
  0 < quota → bookings ≤ 0 → 0 ≤ tierFloor t →
  ltb 0 (bookingsInTierOf bookings quota t) = false.
Proof.
  intros Hq Hb Hfl. apply ltb_ge.
  unfold bookingsInTierOf, tierFloorAmountOf. fold (tierFloor t).
  assert (0 ≤ tierFloor t / int 100 * quota) as Hf.
  { apply Qcmult_nonneg_nonneg; [by apply rate_fraction_nonneg|by apply Qclt_le_weak]. }
  revert Hf. generalize (tierFloor t / int 100 * quota). intros f Hf.
  unfold Math_min_x.
  destruct (xsub (tierCeilingAmountOf quota t) f) as [r|]; minmax_lra.
Qed.

(** X12: for a quota above 0, bookings at or below 0 and a schedule
    without negative floors, the aggregate calculator pays nothing: the
    gross commission is 0 and the breakdown is empty. *)
Theorem nonpositive_bookings_pay_nothing (bookings quota : num) (tiers : list PlanTier) :
  0 < quota →
  bookings ≤ 0 →
  Forall (λ t, 0 ≤ tierFloor t) tiers →
  grossCommission (calculateTieredCommission bookings quota tiers) = 0 ∧
  tierBreakdown (calculateTieredCommission bookings quota tiers) = [].
Proof.
  intros Hq Hb Hfloors.
  rewrite (calculateTieredCommission_unfold _ _ _ Hq). simpl.
  rewrite <-(sortTiers_perm tiers) in Hfloors.
  induction Hfloors as [|t l Ht _ [IH1 IH2]]; [done|].
  rewrite fmap_cons, Qsum_cons, breakdownOf_cons, IH1, IH2.
  unfold tierCommissionOf, breakdownOf. simpl.
  rewrite (bookingsInTierOf_nonpos _ _ _ Hq Hb Ht). split; [ring|done].
Qed.

(** ** Properties of the views *)

Lemma fold_left_sum {S} (f : S → num) (l : list S) (acc : num) :
  fold_left (λ sum s, sum + f s) l acc = acc + Qsum (f <$> l).
Proof.
  revert acc. induction l as [|x l IH]; intros acc; cbn [fold_left].
  - simpl. by rewrite Qcplus_0_r.
  - rewrite IH, fmap_cons, Qsum_cons. ring.
Qed.

(** X13: the attainment shown on a statement card and in the statement
    detail view is the attainmentPercent the aggregate calculator
    returns for the statement's achieved amount and quota, whatever the
    tiers; a missing or non-positive quota shows 0 in all three. *)
Theorem views_show_calculator_attainment (statement : CompStatement)
    (tiers : list PlanTier) :
  StatementCard.attainment statement
    = attainmentPercent
        (calculateTieredCommission (StatementCard.achieved statement)
           (StatementCard.quota statement) tiers) ∧
  StatementDetailView.attainment statement = StatementCard.attainment statement ∧
  (StatementCard.quota statement ≤ 0 → StatementCard.attainment statement = 0).
Proof.
  unfold StatementDetailView.attainment, StatementCard.attainment,
    StatementDetailView.quota, StatementDetailView.achieved,
    StatementCard.quota, StatementCard.achieved, calculateTieredCommission.
  destruct (ltb 0 (orZero (Quota_Amount__c statement))) eqn:E.
  - apply ltb_lt in E. pose proof E as E'. apply leb_gt in E' as ->.
    repeat split. by intros ?%Qclt_not_le.
  - apply ltb_ge in E. pose proof E as E'. apply leb_le in E' as ->. done.
Qed.

(** X14: the total earnings of the dashboard are the sum of the
    commissions shown on the statement cards. *)
Theorem dashboard_total_is_sum_of_cards (statements : list CompStatement) :
  RepDashboard.totalEarnings statements
  = Qsum (StatementCard.commission <$> statements).
Proof.
  unfold RepDashboard.totalEarnings.
  rewrite (fold_left_sum
             (λ s, orZero (orElse (Net_Commission__c s) (Gross_Commission__c s)))).
  apply Qcplus_0_l.
Qed.

Lemma truthy_orZero (x : option num) :
  truthy x = None → orZero x = 0.
Proof. unfold orZero. by intros ->. Qed.

Lemma orZero_truthy (x : option num) (q : num) :
  truthy x = Some q → orZero x = q.
Proof. unfold orZero. by intros ->. Qed.

(** X15: the commission on a statement card and the net commission of
    the detail view are the same number exactly when the statement has
    a net commission other than 0 or its adjustments are missing or 0;
    otherwise the card shows the gross commission and the detail view
    the gross commission plus the adjustments. *)
Theorem card_and_detail_commission (statement : CompStatement) :
  (StatementCard.commission statement = StatementDetailView.netCommission statement
   ↔ truthy (Net_Commission__c statement) ≠ None
     ∨ StatementDetailView.adjustments statement = 0) ∧
  (truthy (Net_Commission__c statement) = None →
   StatementCard.commission statement = StatementDetailView.grossCommission statement ∧
   StatementDetailView.netCommission statement
     = StatementDetailView.grossCommission statement
       + StatementDetailView.adjustments statement).
Proof.
  unfold StatementCard.commission, StatementDetailView.netCommission, orElse,
    StatementDetailView.grossCommission.
  destruct (truthy (Net_Commission__c statement)) as [net|] eqn:Hnet.
  - split; [|done]. split; [by left|]. intros _.
    unfold orZero. by rewrite (truthy_nonzero net)
      by (apply truthy_Some in Hnet; tauto).
  - split; [|done]. split.
    + intros Heq. right. qc_lra.
    + intros [?| ->]; [done|]. ring.
Qed.

Lemma length_pos_int {A} (l : list A) : l ≠ [] → 0 < int (Z.of_nat (length l)).
Proof.
  intros Hne. unfold int. rewrite <-Z2Qc_inj_0.
  apply (proj1 (Z2Qc_inj_lt 0 (Z.of_nat (length l)))).
  destruct l as [|x l]; [done|]. rewrite length_cons. lia.
Qed.

Lemma avgAttainment_sum (statements : list CompStatement) (acc : num) :
  fold_left
    (λ sum s,
       let quota := orZero (Quota_Amount__c s) in
       let achieved := orZero (Achieved_Amount__c s) in
       sum + (if ltb 0 quota then (achieved / quota) * int 100 else 0))
    statements acc
  = fold_left Qcplus
      (StatementCard.attainment
         <$> filter (λ s, 0 < StatementCard.quota s) statements) acc.
Proof.
  revert acc. induction statements as [|s l IH]; intros acc; [done|].
  cbn [fold_left]. rewrite IH, filter_cons. cbn zeta.
  destruct (decide (0 < StatementCard.quota s)) as [Hq|Hq].
  - by rewrite fmap_cons.
  - assert (ltb 0 (orZero (Quota_Amount__c s)) = false) as ->.
    { apply ltb_ge. by apply Qcnot_lt_le. }
    by rewrite Qcplus_0_r.
Qed.

Lemma fold_left_Qcplus_nonneg (l : list num) (acc : num) :
  0 ≤ acc → Forall (λ x, 0 ≤ x) l → 0 ≤ fold_left Qcplus l acc.
Proof.
  intros Hacc Hl. revert acc Hacc.
  induction Hl as [|x l Hx _ IH]; intros acc Hacc; [done|].
  cbn [fold_left]. by apply IH, Qc_add_nonneg.
Qed.

(** X16: the average attainment of the dashboard is 0 without
    statements.  With statements it is the sum, taken in their order, of
    the attainments the cards show for the statements with a quota
    above 0, divided by the number of all statements: a statement
    without a quota above 0 adds nothing to the sum and still counts in
    the divisor.  It is never negative when no achieved amount is. *)
Theorem average_counts_every_statement (statements : list CompStatement) :
  RepDashboard.avgAttainment [] = 0 ∧
  (statements ≠ [] →
   RepDashboard.avgAttainment statements
   = fold_left Qcplus
       (StatementCard.attainment
          <$> filter (λ s, 0 < StatementCard.quota s) statements) 0
     / int (Z.of_nat (length statements))) ∧
  (Forall (λ s, 0 ≤ StatementCard.achieved s) statements →
   0 ≤ RepDashboard.avgAttainment statements).
Proof.
  split; [done|].
  destruct (decide (statements = [])) as [->|Hne]; [by split|].
  assert (RepDashboard.avgAttainment statements
          = fold_left Qcplus
              (StatementCard.attainment
                 <$> filter (λ s, 0 < StatementCard.quota s) statements) 0
            / int (Z.of_nat (length statements))) as Havg.
  { unfold RepDashboard.avgAttainment.
    rewrite bool_decide_eq_true_2 by (destruct statements; [done|simpl; lia]).
    by rewrite avgAttainment_sum. }
  split; [done|]. intros Hall. rewrite Havg.
  apply Qcmult_nonneg_nonneg; [|by apply Qclt_le_weak, Qcinv_pos, length_pos_int].
  apply fold_left_Qcplus_nonneg; [apply Qcle_refl|].
  apply Forall_fmap, Forall_forall. intros s [Hq Hs]%list_elem_of_filter.
  rewrite Forall_forall in Hall.
  unfold compose, StatementCard.attainment.
  rewrite (proj2 (ltb_lt 0 _) Hq). by apply attainment_nonneg; [apply Hall|].
Qed.

(** *** The period filter *)

Lemma Set_values_go (acc values : list string) :
  NoDup acc →
  NoDup (fold_left (λ acc v, if decide (v ∈ acc) then acc else acc ++ [v]) values acc) ∧
  ∀ v, v ∈ fold_left (λ acc v, if decide (v ∈ acc) then acc else acc ++ [v]) values acc
       ↔ v ∈ acc ∨ v ∈ values.
Proof.
  revert acc. induction values as [|x values IH]; intros acc Hnd; cbn [fold_left].
  - split; [done|]. intros v. rewrite elem_of_nil. tauto.
  - case_decide as Hx.
    + destruct (IH acc Hnd) as [H1 H2]. split; [done|].
      intros v. rewrite H2, elem_of_cons.
      split; [tauto|]. intros [?|[->|?]]; auto.
    + destruct (IH (acc ++ [x])) as [H1 H2].
      { apply NoDup_app. repeat split; [done| |apply NoDup_singleton].
        intros y Hy ->%list_elem_of_singleton. done. }
      split; [done|].
      intros v. rewrite H2, elem_of_app, list_elem_of_singleton, elem_of_cons. tauto.
Qed.

Lemma uniquePeriods_spec (statements : list CompStatement) :
  NoDup (RepDashboard.uniquePeriods statements) ∧
  ∀ p, p ∈ RepDashboard.uniquePeriods statements
       ↔ p ≠ EmptyString ∧ ∃ s, s ∈ statements ∧ Fiscal_Period__c s = p.
Proof.
  unfold RepDashboard.uniquePeriods, RepDashboard.Set_values.
  destruct (Set_values_go [] (Fiscal_Period__c <$> statements)) as [Hnd Hin];
    [constructor|].
  split; [by apply NoDup_filter|].
  intros p. rewrite list_elem_of_filter, Hin, elem_of_nil, list_elem_of_fmap.
  split.
  - intros [Hp [[]|(y & -> & Hy)]]. eauto.
  - intros [Hp (y & Hy & <-)]. eauto.
Qed.

(** X17: the period choices of the dashboard are the non-empty fiscal
    periods of the statements, each listed once. *)
Theorem unique_periods_are_the_periods (statements : list CompStatement) :
  NoDup (RepDashboard.uniquePeriods statements) ∧
  ∀ p, p ∈ RepDashboard.uniquePeriods statements
       ↔ p ≠ EmptyString ∧ ∃ s, s ∈ statements ∧ Fiscal_Period__c s = p.
Proof. apply uniquePeriods_spec. Qed.

(** X18: choosing one of the listed periods never leaves the dashboard
    empty; the statements shown are those of that period, in their
    order, unless the period is itself called "all", which shows every
    statement. *)
Theorem period_filter_selects (p : string) (statements : list CompStatement) :
  p ∈ RepDashboard.uniquePeriods statements →
  RepDashboard.filteredStatements p statements ≠ [] ∧
  (p ≠ "all" →
   RepDashboard.filteredStatements p statements
     = filter (λ s, Fiscal_Period__c s = p) statements) ∧
  (p = "all" → RepDashboard.filteredStatements p statements = statements).
Proof.
  intros (Hne & s & Hs & Hp)%uniquePeriods_spec.
  unfold RepDashboard.filteredStatements.
  case_decide as Hall.
  - repeat split; [|done..]. intros ->. by apply elem_of_nil in Hs.
  - repeat split; [|done..]. intros Hnil.
    by apply (filter_nil_not_elem_of _ _ s Hnil).
Qed.

(** X19: the tier table of the detail view shows "Uncapped" exactly for
    the tiers whose ceiling both calculators take as +infinity: those
    without a ceiling and those with a ceiling of 0. *)
Theorem uncapped_cell_matches_calculators (tier : PlanTier) :
  (StatementDetailView.ceilingCell tier = StatementDetailView.Uncapped
   ↔ tierCeilingOf tier = Inf) ∧
  (StatementDetailView.ceilingCell tier = StatementDetailView.Uncapped
   ↔ tierCeilingPct tier = Inf) ∧
  (StatementDetailView.ceilingCell tier = StatementDetailView.Uncapped
   ↔ Attainment_Ceiling__c tier = None ∨ Attainment_Ceiling__c tier = Some 0).
Proof.
  unfold StatementDetailView.ceilingCell, tierCeilingOf, tierCeilingPct, orInfinity, truthy.
  destruct (Attainment_Ceiling__c tier) as [c|]; [|by repeat split; auto].
  case_decide as Hc.
  - subst c. by repeat split; auto.
  - repeat split; try done. intros [|[= ->]]; done.
Qed.

(** ** Properties of the access levels *)

Lemma prefix_trans (p q s : string) :
  String.prefix p q = true → String.prefix q s = true → String.prefix p s = true.
Proof.
  revert q s. induction p as [|a p IH]; intros q s; [by destruct s|].
  destruct q as [|b q]; [done|]. destruct s as [|c s]; [done|]. simpl.
  destruct (Ascii.ascii_dec a b) as [->|]; [|done].
  destruct (Ascii.ascii_dec b c) as [->|]; [|done]. apply IH.
Qed.

(** A role name that includes [q] includes every prefix of [q]. *)
Lemma includes_prefix (s p q : string) :
  String.prefix p q = true → includes s q = true → includes s p = true.
Proof.
  intros Hpq. induction s as [|a s IH]; cbn [includes].
  - rewrite !orb_false_r. by apply prefix_trans.
  - rewrite !orb_true_iff. intros [H|H]; [left; by eapply prefix_trans|right; auto].
Qed.

Lemma someIncluded_VP (r : string) :
  someIncluded VP_ROLES r = includes r "VP" || includes r "CEO".
Proof.
  unfold someIncluded, VP_ROLES. cbn [existsb]. rewrite orb_false_r.
  destruct (includes r "VP of Sales") eqn:E; [|done].
  by rewrite (includes_prefix r "VP" "VP of Sales").
Qed.

Lemma someIncluded_DIRECTOR (r : string) :
  someIncluded DIRECTOR_ROLES r = includes r "Director".
Proof.
  unfold someIncluded, DIRECTOR_ROLES. cbn [existsb]. rewrite orb_false_r.
  destruct (includes r "Director of Sales") eqn:E; [|done].
  by rewrite (includes_prefix r "Director" "Director of Sales").
Qed.

Lemma someIncluded_MANAGER (r : string) :
  someIncluded MANAGER_ROLES r
  = includes r "CEO" || includes r "VP of Sales"
    || includes r "Sales Manager" || includes r "Chief of Staff".
Proof.
  unfold someIncluded, MANAGER_ROLES. cbn [existsb].
  by rewrite orb_false_r, !orb_assoc.
Qed.

Lemma getAccessLevel_cases (user : SalesforceUser) :
  let r := roleNameOf user in
  getAccessLevel user =
  if includes r "VP" || includes r "CEO" then vp
  else if includes r "Director" then director
  else if includes r "Sales Manager" || includes r "Chief of Staff" then manager
  else rep.
Proof.
  intros r. unfold getAccessLevel. fold r.
  rewrite someIncluded_VP, someIncluded_DIRECTOR, someIncluded_MANAGER.
  destruct (includes r "VP") eqn:EVP; [done|].
  destruct (includes r "CEO") eqn:ECEO; [done|]. simpl.
  destruct (includes r "VP of Sales") eqn:E; [|done].
  by rewrite (includes_prefix r "VP" "VP of Sales") in EVP.
Qed.

(** X20: the access level is decided by four keywords of the role
    name: "VP" or "CEO" gives vp; otherwise "Director" gives director;
    otherwise "Sales Manager" or "Chief of Staff" gives manager;
    otherwise, and for a user without role, rep.  The manager entries
    "CEO" and "VP of Sales" never give manager, and admin is never
    returned. *)
Theorem access_level_by_keyword (user : SalesforceUser) :
  let r := roleNameOf user in
  (getAccessLevel user = vp ↔ includes r "VP" = true ∨ includes r "CEO" = true) ∧
  (getAccessLevel user = director ↔
     includes r "VP" = false ∧ includes r "CEO" = false ∧
     includes r "Director" = true) ∧
  (getAccessLevel user = manager ↔
     includes r "VP" = false ∧ includes r "CEO" = false ∧
     includes r "Director" = false ∧
     (includes r "Sales Manager" = true ∨ includes r "Chief of Staff" = true)) ∧
  getAccessLevel user ≠ admin ∧
  (user_UserRole user = None → getAccessLevel user = rep).
Proof.
  intros r. rewrite getAccessLevel_cases. fold r.
  assert (user_UserRole user = None → r = EmptyString) as Hnone.
  { intros H. unfold r, roleNameOf. by rewrite H. }
  destruct (includes r "VP") eqn:EVP, (includes r "CEO") eqn:ECEO,
    (includes r "Director") eqn:ED, (includes r "Sales Manager") eqn:ESM,
    (includes r "Chief of Staff") eqn:ECS; simpl;
    (repeat split; try done; try tauto; try (intuition congruence);
     try (intros H; specialize (Hnone H); subst r; rewrite Hnone in *; done)).
Qed.


(** ** Properties of the session *)

Lemma digitsPrefix_string_of_uint (d : uint) :
  Session.digitsPrefix (NilEmpty.string_of_uint d) = d.
Proof. induction d; simpl; by rewrite ?IHd. Qed.

Lemma parseInt_digits (d : uint) :
  d ≠ Nil →
  Session.parseInt (NilEmpty.string_of_uint d) = Some (Z.of_N (Pos.of_uint d)).
Proof.
  intros Hd. unfold Session.parseInt.
  destruct d; [done|..]; cbn [NilEmpty.string_of_uint Session.trimStart];
    match goal with
    | |- context [Session.isWhiteSpace ?c] =>
        replace (Session.isWhiteSpace c) with false by (vm_compute; reflexivity)
    end;
    cbn [Session.digitsPrefix uint_of_char];
    by rewrite digitsPrefix_string_of_uint.
Qed.

Lemma parseInt_neg_digits (d : uint) :
  d ≠ Nil →
  Session.parseInt (String "-" (NilEmpty.string_of_uint d))
  = Some (- Z.of_N (Pos.of_uint d))%Z.
Proof.
  intros Hd. unfold Session.parseInt. cbn [Session.trimStart].
  replace (Session.isWhiteSpace "-") with false by (vm_compute; reflexivity).
  cbn beta iota. rewrite digitsPrefix_string_of_uint. by destruct d.
Qed.

Lemma NilZero_string_of_uint (d : uint) :
  d ≠ Nil → NilZero.string_of_uint d = NilEmpty.string_of_uint d.
Proof. by destruct d. Qed.

Lemma parseInt_toString (n : Z) : Session.parseInt (Session.toString n) = Some n.
Proof.
  unfold Session.toString. destruct n as [|p|p]; [reflexivity|..];
    cbn [Z.to_int NilZero.string_of_int];
    rewrite (NilZero_string_of_uint _ (Unsigned.to_uint_nonnil p)).
  - rewrite parseInt_digits by apply Unsigned.to_uint_nonnil.
    by rewrite Unsigned.of_to.
  - rewrite parseInt_neg_digits by apply Unsigned.to_uint_nonnil.
    by rewrite Unsigned.of_to.
Qed.

Lemma getSessionStart_extendSession (now : Z) (ls : gmap string string) :
  Session.getSessionStart (Session.extendSession now ls) = Some now.
Proof.
  unfold Session.getSessionStart, Session.extendSession.
  rewrite lookup_insert_eq.
  case_decide as Hempty; [|apply parseInt_toString].
  pose proof (parseInt_toString now) as H. by rewrite Hempty in H.
Qed.

(** X22: extending the session at time [now] stores a start that reads
    back as [now]; unless [now] is 0, the session is then not expired up
    to 24 hours later, with the remaining time counting down from 24
    hours, and it is expired after that.  Right after extending, 24
    hours remain and the session is not expiring soon, as
    extendUserSession sets its state.  No other key of the storage
    changes. *)
Theorem extend_session_restarts_the_clock (now later : Z) (ls : gmap string string) :
  now ≠ 0%Z →
  (now ≤ later)%Z →
  let ls' := Session.extendSession now ls in
  Session.getSessionStart ls' = Some now ∧
  (Session.isSessionExpired later ls' = false
   ↔ (later - now ≤ Session.MAX_DURATION_MS)%Z) ∧
  Session.getSessionTimeRemaining later ls'
    = Z.max 0 (Session.MAX_DURATION_MS - (later - now)) ∧
  Session.getSessionTimeRemaining now ls' = Session.MAX_DURATION_MS ∧
  Session.isSessionExpiringSoon now ls' = false ∧
  ∀ key, key ≠ Session.SESSION_START → ls' !! key = ls !! key.
Proof.
  intros Hnow Hlater ls'. subst ls'.
  pose proof (getSessionStart_extendSession now ls) as Hstart.
  unfold Session.isSessionExpired, Session.getSessionTimeRemaining,
    Session.isSessionExpiringSoon.
  rewrite Hstart. simpl.
  rewrite bool_decide_eq_false_2 by done.
  split; [done|]. split; [|split; [done|split; [|split]]].
  - rewrite bool_decide_eq_false. lia.
  - unfold Session.MAX_DURATION_MS. lia.
  - apply andb_false_iff. right. apply bool_decide_eq_false.
    unfold Session.MAX_DURATION_MS, Session.WARNING_THRESHOLD_MS. lia.
  - intros key Hkey. unfold Session.extendSession. by rewrite lookup_insert_ne.
Qed.

(** X23: the three session checks agree with each other at every time
    and for every content of the storage: a session that is expiring
    soon is not expired and has between 1 ms and 30 minutes left; an
    expired session has nothing left; the remaining time is never
    negative; and exactly 24 hours after its start a session has nothing
    left but is neither expired nor expiring soon. *)
Theorem session_checks_agree (now : Z) (ls : gmap string string) :
  (Session.isSessionExpiringSoon now ls = true →
   Session.isSessionExpired now ls = false ∧
   (0 < Session.getSessionTimeRemaining now ls ≤ Session.WARNING_THRESHOLD_MS)%Z) ∧
  (Session.isSessionExpired now ls = true →
   Session.getSessionTimeRemaining now ls = 0%Z) ∧
  (0 ≤ Session.getSessionTimeRemaining now ls)%Z ∧
  (∀ start, Session.getSessionStart ls = Some start → start ≠ 0%Z →
            (now - start = Session.MAX_DURATION_MS)%Z →
            Session.isSessionExpired now ls = false ∧
            Session.isSessionExpiringSoon now ls = false ∧
            Session.getSessionTimeRemaining now ls = 0%Z).
Proof.
  unfold Session.isSessionExpiringSoon, Session.isSessionExpired,
    Session.getSessionTimeRemaining.
  destruct (Session.getSessionStart ls) as [start|]; simpl; [|done].
  case_bool_decide as H0.
  { repeat split; try done. all: congruence. }
  split; [|split; [|split]].
  - intros [H1%bool_decide_eq_true H2%bool_decide_eq_true]%andb_true_iff.
    split; [apply bool_decide_eq_false; lia|lia].
  - intros H%bool_decide_eq_true. lia.
  - lia.
  - intros s [= <-] Hs Heq.
    split; [apply bool_decide_eq_false; lia|].
    split; [apply andb_false_iff; left; apply bool_decide_eq_false; lia|lia].
Qed.

(** X24: after clearTokens no token, instance URL, user id or session
    start is stored, the session counts as expired at every time with
    nothing left, and every other key of the storage keeps its value. *)
Theorem clear_tokens_ends_the_session (now : Z) (ls : gmap string string) :
  let ls' := Session.clearTokens ls in
  Session.getStoredToken ls' = None ∧
  Session.getStoredInstanceUrl ls' = None ∧
  Session.getStoredUserId ls' = None ∧
  ls' !! Session.REFRESH_TOKEN = None ∧
  Session.getSessionStart ls' = None ∧
  Session.isSessionExpired now ls' = true ∧
  Session.isSessionExpiringSoon now ls' = false ∧
  Session.getSessionTimeRemaining now ls' = 0%Z ∧
  ∀ key,
    key ∉ [Session.ACCESS_TOKEN; Session.REFRESH_TOKEN; Session.INSTANCE_URL;
           Session.USER_ID; Session.SESSION_START] →
    ls' !! key = ls !! key.
Proof.
  intros ls'. subst ls'.
  assert (Session.getSessionStart (Session.clearTokens ls) = None) as Hstart.
  { unfold Session.getSessionStart, Session.clearTokens. by rewrite lookup_delete_eq. }
  unfold Session.isSessionExpired, Session.isSessionExpiringSoon,
    Session.getSessionTimeRemaining. rewrite Hstart.
  unfold Session.getStoredToken, Session.getStoredInstanceUrl, Session.getStoredUserId,
    Session.clearTokens.
  repeat split; try done; try (by simplify_map_eq).
  intros key Hkey. rewrite !lookup_delete_ne; [done|set_solver..].
Qed.

(** X25: after the stored-token check, the app is authenticated
    exactly when a non-empty token is still stored, and then the session
    is not expired and the storage is as it was; a token found with an
    expired session is cleared with the rest of the session, and the
    error says so. *)
Theorem auth_check_matches_storage (now : Z) (ls : gmap string string) :
  let c := checkStoredAuth now ls in
  isAuthenticated c = truthyString (Session.getStoredToken (storageAfter c)) ∧
  (isAuthenticated c = true →
   Session.isSessionExpired now (storageAfter c) = false ∧ storageAfter c = ls ∧
   authError c = None) ∧
  (truthyString (Session.getStoredToken ls) = true →
   Session.isSessionExpired now ls = true →
   isAuthenticated c = false ∧
   Session.getStoredToken (storageAfter c) = None ∧
   Session.getSessionStart (storageAfter c) = None ∧
   authError c = Some "Your session has expired. Please log in again.").
Proof.
  intros c. subst c. unfold checkStoredAuth.
  assert (Session.getStoredToken (Session.clearTokens ls) = None) as Hnotoken.
  { unfold Session.getStoredToken, Session.clearTokens. by simplify_map_eq. }
  assert (Session.getSessionStart (Session.clearTokens ls) = None) as Hnostart.
  { unfold Session.getSessionStart, Session.clearTokens. by rewrite lookup_delete_eq. }
  destruct (truthyString (Session.getStoredToken ls)) eqn:Htok;
    destruct (Session.isSessionExpired now ls) eqn:Hexp; simpl.
  - by rewrite Hnotoken, Hnostart.
  - by rewrite Htok.
  - by rewrite Htok.
  - by rewrite Htok.
Qed.

(** *** The matched floor follows the attainment *)

Lemma findTierFrom_floorLe (a a' : num) (l : list PlanTier) :
  a ≤ a' →
  StronglySorted (λ x y, tierFloor x ≤ tierFloor y) l →
  ∀ acc acc',
    floorLe acc acc' →
    (∀ t, acc = Some t → Forall (λ u, tierFloor t ≤ tierFloor u) l) →
    (∀ t, acc' = Some t → Forall (λ u, tierFloor t ≤ tierFloor u) l) →
    floorLe (findTierFrom a acc l) (findTierFrom a' acc' l).
Proof.
  intros Ha. induction 1 as [|u l Hl IH Hu]; intros acc acc' Hle Hacc Hacc'; [done|].
  assert (∀ x, Forall (λ w, tierFloor x ≤ tierFloor w) (u :: l) →
               Forall (λ w, tierFloor x ≤ tierFloor w) l) as Htail.
  { intros x Hx. by apply Forall_cons in Hx as [_ Hx]. }
  assert (∀ b, floorLe (Some u) (findTierFrom b (Some u) l)) as Hfrom.
  { intros b.
    destruct (findTierFrom_sound b (Some u) l) as [[-> _]|(t & -> & Hin & _)].
    - apply Qcle_refl.
    - rewrite Forall_forall in Hu. by apply Hu. }
  rewrite !findTierFrom_cons.
  destruct (exactMatch a u) eqn:Ex.
  { (* [u] contains [a] *)
    pose proof (exactMatch_floor _ _ Ex) as Hfl.
    assert (leb (tierFloor u) a' = true) as Hle'
      by (apply leb_le; by eapply Qcle_trans).
    destruct (exactMatch a' u); [apply Qcle_refl|]. rewrite Hle'.
    apply Hfrom. }
  destruct (leb (tierFloor u) a) eqn:Efl.
  - (* [a] is at or beyond the ceiling of [u] *)
    apply leb_le in Efl.
    assert (leb (tierFloor u) a' = true) as Hle'
      by (apply leb_le; by eapply Qcle_trans).
    assert (exactMatch a' u = false) as ->.
    { apply not_true_iff_false. intros Ex'.
      unfold exactMatch in Ex, Ex'.
      apply andb_true_iff in Ex' as [_ Hc'].
      apply leb_le in Efl. rewrite Efl in Ex. simpl in Ex.
      destruct (tierCeilingPct u) as [c|]; [|done]. simpl in *.
      apply ltb_lt in Hc'. apply ltb_ge in Ex.
      apply (Qclt_not_le _ _ Hc'). by eapply Qcle_trans. }
    rewrite Hle'. apply IH; [apply Qcle_refl|by intros t [= <-]..].
  - (* the floor of [u] is above [a] *)
    apply leb_gt in Efl.
    assert (floorLe (findTierFrom a acc l) (Some u)) as Hbelow.
    { destruct (findTierFrom_sound a acc l) as [[-> _]|(t & -> & Hin & Hfl)].
      - destruct acc as [t|]; [|done]. simpl.
        specialize (Hacc t eq_refl). by apply Forall_cons in Hacc as [Hacc _].
      - simpl. apply Qclt_le_weak. by eapply Qcle_lt_trans. }
    destruct (exactMatch a' u); [done|].
    destruct (leb (tierFloor u) a') eqn:Efl'.
    + apply IH; [|intros t Ht; by apply Htail, Hacc|by intros t [= <-]].
      destruct acc as [t|]; [|done]. simpl.
      specialize (Hacc t eq_refl). by apply Forall_cons in Hacc as [Hacc _].
    + apply IH; [done|intros t Ht; by apply Htail, Hacc|
                 intros t Ht; by apply Htail, Hacc'].
Qed.

(** X26: the floor of the matched tier never decreases when the
    attainment grows: if the rule matches a tier for an attainment, it
    matches a tier for every higher attainment, with a floor at least as
    high. *)
Theorem matched_floor_is_monotone (a a' : num) (tiers : list PlanTier) :
  a ≤ a' →
  floorLe (findTierForAttainment a (sortTiers tiers))
          (findTierForAttainment a' (sortTiers tiers)).
Proof.
  intros Ha. unfold findTierForAttainment.
  apply findTierFrom_floorLe; [done|apply sortTiers_sorted|done..].
Qed.

(** ** The further properties at concrete inputs *)


(** Bookings of 100000 and of 150000 on the example tiers. *)
Lemma gross_monotone_in_bookings_witness :
  0 ≤ grossCommission (calculateTieredCommission (int 100000) (int 100000) exTiers) ∧
  grossCommission (calculateTieredCommission (int 100000) (int 100000) exTiers)
    ≤ grossCommission (calculateTieredCommission (int 150000) (int 100000) exTiers).
Proof. apply gross_monotone_in_bookings; by_eval. Defined.

(** The first deal record of the example deals. *)
Lemma matched_tier_is_reached_witness :
  let r := mkDealCommission "d1" "d1" (int 60000) (int 10 / int 100) (int 6000)
             "Base" (int 60) (int 60000) in
  (commissionRate r = 0 ∧ tierApplied r = "Base") ∨
  (∃ t, t ∈ exTiers ∧ tierFloor t ≤ attainmentAtDeal r ∧
        commissionRate r = orZero (Commission_Rate__c t) / int 100 ∧
        tierApplied r = orString (tier_Name t) "Base").
Proof.
  apply (proj2 (matched_tier_is_reached 0 exTiers) exDeals (int 100000)). by_eval.
Defined.

(** Attainment 110 on the example tiers. *)
Lemma contiguous_schedule_matches_exactly_witness :
  ∃ t, findTierForAttainment (int 110) (sortTiers exTiers) = Some t ∧
       t ∈ exTiers ∧ inRange (int 110) t.
Proof.
  apply (contiguous_schedule_matches_exactly (int 110) 0 exTiers);
    [vm_compute; reflexivity|by_eval].
Defined.

(** The two capped example tiers in both orders. *)
Lemma tier_order_is_irrelevant_witness :
  calculateTieredCommission (int 110000) (int 100000) cappedTiers
  = calculateTieredCommission (int 110000) (int 100000)
      [exTier "Base" 0 (Some 100%Z) 10; exTier "Accelerator" 100 (Some 125%Z) 15].
Proof.
  apply (tier_order_is_irrelevant cappedTiers _ (int 110000) (int 100000) []).
  - apply Permutation_swap.
  - by_eval.
Defined.

(** Three deals with distinct close dates, rotated. *)
Lemma deal_order_is_irrelevant_witness :
  calculateDealByDealCommission exDealsDistinct (int 100000) exTiers
  = calculateDealByDealCommission
      ([exDeal "d1" 60000 1; exDeal "d2" 30000 2] ++ [exDeal "d3" 40000 3])
      (int 100000) exTiers.
Proof.
  apply deal_order_is_irrelevant.
  - apply (Permutation_cons_append [exDeal "d1" 60000 1; exDeal "d2" 30000 2]).
  - by_eval.
Defined.



(** The example deals at a flat rate of 10 on a quota of 100000. *)
Lemma flat_tier_pays_simple_commission_witness :
  Forall (λ r, commissionRate r = int 10 / int 100 ∧
               dc_commissionAmount r = calculateSimpleCommission (dealAmount r) (int 10) ∧
               tierApplied r = orString "Flat" "Base")
    (calculateDealByDealCommission exDeals (int 100000)
       [flatTier "t" "Flat" "plan" (int 10) None]).
Proof.
  apply (flat_tier_pays_simple_commission (int 100000) (int 10) "t" "Flat" "plan" None
           exDeals); by_eval.
Defined.

(** Bookings of -5 on the example tiers. *)
Lemma nonpositive_bookings_pay_nothing_witness :
  grossCommission (calculateTieredCommission (int (-5)) (int 100000) exTiers) = 0 ∧
  tierBreakdown (calculateTieredCommission (int (-5)) (int 100000) exTiers) = [].
Proof. apply nonpositive_bookings_pay_nothing; by_eval. Defined.

(** A statement without quota. *)
Lemma views_show_calculator_attainment_witness :
  StatementCard.attainment
    (mkCompStatement "s3" "FY25-Q1" "Approved" None (Some (int 10)) None None None) = 0.
Proof.
  apply (views_show_calculator_attainment
           (mkCompStatement "s3" "FY25-Q1" "Approved" None (Some (int 10)) None None None)
           []).
  by_eval.
Defined.

(** A statement without net commission and with adjustments of 200. *)
Lemma card_and_detail_commission_witness :
  StatementCard.commission
    (mkCompStatement "s2" "FY25-Q2" "Draft" (Some (int 100000)) (Some (int 50000))
       (Some (int 5000)) (Some (int 200)) None)
  = StatementDetailView.grossCommission
      (mkCompStatement "s2" "FY25-Q2" "Draft" (Some (int 100000)) (Some (int 50000))
         (Some (int 5000)) (Some (int 200)) None).
Proof.
  apply (card_and_detail_commission
           (mkCompStatement "s2" "FY25-Q2" "Draft" (Some (int 100000)) (Some (int 50000))
              (Some (int 5000)) (Some (int 200)) None)).
  reflexivity.
Defined.

(** The example statements, one of them without a quota. *)
Lemma average_counts_every_statement_witness :
  RepDashboard.avgAttainment exStatements
  = fold_left Qcplus
      (StatementCard.attainment
         <$> filter (λ s, 0 < StatementCard.quota s) exStatements) 0
    / int (Z.of_nat (length exStatements)) ∧
  0 ≤ RepDashboard.avgAttainment exStatements.
Proof.
  destruct (average_counts_every_statement exStatements) as (_ & Havg & Hpos).
  split; [by apply Havg|]. apply Hpos. by_eval.
Defined.

(** Choosing the period of two of the example statements. *)
Lemma period_filter_selects_witness :
  RepDashboard.filteredStatements "FY25-Q1" exStatements ≠ [].
Proof.
  apply (period_filter_selects "FY25-Q1" exStatements). by_eval.
Defined.

(** A user without role. *)
Lemma access_level_by_keyword_witness :
  getAccessLevel (mkSalesforceUser "u3" "Cy" None) = rep.
Proof.
  apply (access_level_by_keyword (mkSalesforceUser "u3" "Cy" None)). reflexivity.
Defined.


(** Extending the example session, read one hour later. *)
Lemma extend_session_restarts_the_clock_witness :
  Session.getSessionStart (Session.extendSession 1700000000000 exStorage)
    = Some 1700000000000%Z ∧
  Session.getSessionTimeRemaining 1700003600000
    (Session.extendSession 1700000000000 exStorage)
  = Z.max 0 (Session.MAX_DURATION_MS - (1700003600000 - 1700000000000)).
Proof.
  destruct (extend_session_restarts_the_clock 1700000000000 1700003600000 exStorage)
    as (H1 & _ & H3 & _); [lia|lia|].
  by split.
Defined.

(** The example session, 23 hours and 50 minutes after its start. *)
Lemma session_checks_agree_witness :
  Session.isSessionExpired (1700000000000 + 85800000) exStorage = false.
Proof.
  apply (session_checks_agree (1700000000000 + 85800000) exStorage).
  vm_compute. reflexivity.
Defined.

(** Clearing the example storage keeps the key of the other application. *)
Lemma clear_tokens_ends_the_session_witness :
  Session.clearTokens exStorage !! "theme" = exStorage !! "theme".
Proof.
  apply (clear_tokens_ends_the_session 0 exStorage). by_eval.
Defined.

(** The example storage, checked 25 hours after the session start. *)
Lemma auth_check_matches_storage_witness :
  isAuthenticated (checkStoredAuth (1700000000000 + 90000000) exStorage) = false ∧
  Session.getStoredToken
    (storageAfter (checkStoredAuth (1700000000000 + 90000000) exStorage)) = None.
Proof.
  destruct (auth_check_matches_storage (1700000000000 + 90000000) exStorage)
    as (_ & _ & H).
  destruct H as (H1 & H2 & _); [vm_compute; reflexivity..|]. by split.
Defined.

(** Attainments 60 and 110 on the example tiers. *)
Lemma matched_floor_is_monotone_witness :
  floorLe (findTierForAttainment (int 60) (sortTiers exTiers))
          (findTierForAttainment (int 110) (sortTiers exTiers)).
Proof. apply matched_floor_is_monotone. by_eval. Defined.
